(** * macbat: the battery snapshot reader [getBatteryInfo]

    A shallow embedding of [src/internal/battery/battery_info.c] and of the
    [BatteryInfo] structure of [battery_info.h].

    [getBatteryInfo] takes no argument: everything it reads comes from two
    macOS services, the power-source enumeration (IOPowerSources) and the
    I/O Registry.  What these services answer during one call is the
    [Platform] record below; the function is embedded as a function of that
    record.  The calls that acquire or release a platform object, and the
    calls that ask for the description of a listed power source, are
    recorded in a trace, so that handle accounting and the extent of the
    scan can be stated. *)

From Stdlib Require Import ZArith Lia.
From stdpp Require Import gmap strings list.

Open Scope Z_scope.

(** ** CoreFoundation values *)

(** The property-list values that the dictionaries read by the code hold.
    [CFNumber] carries the integer a number object stores; floating-point
    number objects are not modelled. *)
Inductive CFType : Type :=
| CFString (s : string)
| CFNumber (n : Z)
| CFBoolean (b : bool).

Global Instance CFType_eq_dec : EqDecision CFType.
Proof. solve_decision. Defined.

(** A [CFDictionaryRef] whose keys are strings. *)
Abbreviation CFDictionary := (gmap string CFType).

(** Keys and values of [IOKit/ps/IOPSKeys.h].  The header belongs to the
    macOS SDK, not to the repository; the constants are the SDK's.  No
    theorem below depends on their spelling. *)
Definition kIOPSTypeKey : string := "Type".
Definition kIOPSInternalBatteryType : string := "InternalBattery".
Definition kIOPSCurrentCapacityKey : string := "Current Capacity".
Definition kIOPSIsChargingKey : string := "Is Charging".
Definition kIOPSPowerSourceStateKey : string := "Power Source State".
Definition kIOPSACPowerValue : string := "AC Power".
Definition kIOPSTimeToEmptyKey : string := "Time to Empty".
Definition kIOPSTimeToFullChargeKey : string := "Time to Full Charge".

(** Range of the C type [int] on the platforms macOS runs on. *)
Definition INT_MIN : Z := -2147483648.
Definition INT_MAX : Z := 2147483647.

(** ** The result structure of [battery_info.h] *)

Record BatteryInfo : Type := mkBatteryInfo {
  currentCapacity : Z;
  maxCapacity : Z;
  designCapacity : Z;
  cycleCount : Z;
  voltage : Z;
  amperage : Z;
  isCharging : Z;
  isPlugged : Z;
  timeToEmpty : Z;
  timeToFull : Z
}.

(** [BatteryInfo info = {0};] *)
Definition zeroInfo : BatteryInfo := mkBatteryInfo 0 0 0 0 0 0 0 0 0 0.

(** Assignments to one member, as [info.f = v] or a store through [&info.f]. *)
Definition set_currentCapacity (v : Z) (i : BatteryInfo) : BatteryInfo :=
  mkBatteryInfo v (maxCapacity i) (designCapacity i) (cycleCount i) (voltage i)
    (amperage i) (isCharging i) (isPlugged i) (timeToEmpty i) (timeToFull i).
Definition set_maxCapacity (v : Z) (i : BatteryInfo) : BatteryInfo :=
  mkBatteryInfo (currentCapacity i) v (designCapacity i) (cycleCount i) (voltage i)
    (amperage i) (isCharging i) (isPlugged i) (timeToEmpty i) (timeToFull i).
Definition set_designCapacity (v : Z) (i : BatteryInfo) : BatteryInfo :=
  mkBatteryInfo (currentCapacity i) (maxCapacity i) v (cycleCount i) (voltage i)
    (amperage i) (isCharging i) (isPlugged i) (timeToEmpty i) (timeToFull i).
Definition set_cycleCount (v : Z) (i : BatteryInfo) : BatteryInfo :=
  mkBatteryInfo (currentCapacity i) (maxCapacity i) (designCapacity i) v (voltage i)
    (amperage i) (isCharging i) (isPlugged i) (timeToEmpty i) (timeToFull i).
Definition set_voltage (v : Z) (i : BatteryInfo) : BatteryInfo :=
  mkBatteryInfo (currentCapacity i) (maxCapacity i) (designCapacity i) (cycleCount i) v
    (amperage i) (isCharging i) (isPlugged i) (timeToEmpty i) (timeToFull i).
Definition set_amperage (v : Z) (i : BatteryInfo) : BatteryInfo :=
  mkBatteryInfo (currentCapacity i) (maxCapacity i) (designCapacity i) (cycleCount i)
    (voltage i) v (isCharging i) (isPlugged i) (timeToEmpty i) (timeToFull i).
Definition set_isCharging (v : Z) (i : BatteryInfo) : BatteryInfo :=
  mkBatteryInfo (currentCapacity i) (maxCapacity i) (designCapacity i) (cycleCount i)
    (voltage i) (amperage i) v (isPlugged i) (timeToEmpty i) (timeToFull i).
Definition set_isPlugged (v : Z) (i : BatteryInfo) : BatteryInfo :=
  mkBatteryInfo (currentCapacity i) (maxCapacity i) (designCapacity i) (cycleCount i)
    (voltage i) (amperage i) (isCharging i) v (timeToEmpty i) (timeToFull i).
Definition set_timeToEmpty (v : Z) (i : BatteryInfo) : BatteryInfo :=
  mkBatteryInfo (currentCapacity i) (maxCapacity i) (designCapacity i) (cycleCount i)
    (voltage i) (amperage i) (isCharging i) (isPlugged i) v (timeToFull i).
Definition set_timeToFull (v : Z) (i : BatteryInfo) : BatteryInfo :=
  mkBatteryInfo (currentCapacity i) (maxCapacity i) (designCapacity i) (cycleCount i)
    (voltage i) (amperage i) (isCharging i) (isPlugged i) (timeToEmpty i) v.

(** ** The platform *)

(** One entry of the array returned by [IOPSCopyPowerSourcesList].
    [psDescription] is what [IOPSGetPowerSourceDescription] answers for it:
    [None] is the NULL answer. *)
Record PowerSource : Type := mkPowerSource {
  psDescription : option CFDictionary
}.

(** The blob returned by [IOPSCopyPowerSourcesInfo].  [sourcesList] is what
    [IOPSCopyPowerSourcesList] answers for it: [None] is NULL. *)
Record PowerSourcesInfo : Type := mkPowerSourcesInfo {
  sourcesList : option (list PowerSource)
}.

(** The registry entry matched by the service name ["IOPMPowerSource"].
    [entryProperties] is what [IORegistryEntryCreateCFProperties] produces:
    [None] is a result other than [KERN_SUCCESS]. *)
Record RegistryEntry : Type := mkRegistryEntry {
  entryProperties : option CFDictionary
}.

(** What the two services answer during one call.  [None] in
    [powerSourcesInfo] is a NULL blob; [None] in [registryService] is the
    entry [0] returned when no service matches. *)
Record Platform : Type := mkPlatform {
  powerSourcesInfo : option PowerSourcesInfo;
  registryService : option RegistryEntry
}.

(** The four objects the function owns once the call that produces them
    succeeds, named after the C variables that hold them
    ([HregistryEntry] is the second variable called [powerSource]). *)
Inductive Handle : Type :=
| HpowerInfo
| HpowerSources
| HregistryEntry
| Hproperties.

Global Instance Handle_eq_dec : EqDecision Handle.
Proof. solve_decision. Defined.

(** Observable platform calls. *)
Inductive Event : Type :=
| EvAcquire (h : Handle)   (* a Copy, Create or matching call handed over an object *)
| EvFail (h : Handle)      (* the same call answered NULL, 0 or an error code *)
| EvRelease (h : Handle)   (* CFRelease or IOObjectRelease on the object *)
| EvDescribe (i : nat).    (* IOPSGetPowerSourceDescription on the i-th listed source *)

Global Instance Event_eq_dec : EqDecision Event.
Proof. solve_decision. Defined.

(** ** Outcomes of a run *)

(** A run either returns a value, having made the platform calls of [tr] in
    order, or its behaviour is undefined: the code hands every dictionary
    value to [CFStringCompare] or [CFNumberGetValue] without looking at its
    type, and these functions are defined on strings and on numbers only. *)
Inductive Outcome (A : Type) : Type :=
| Returns (a : A) (tr : list Event)
| Undefined.
Arguments Returns {A} a tr.
Arguments Undefined {A}.

Global Instance Outcome_ret : MRet Outcome := λ A a, Returns a [].
Global Instance Outcome_bind : MBind Outcome := λ A B f m,
  match m with
  | Undefined => Undefined
  | Returns a t1 =>
    match f a with
    | Undefined => Undefined
    | Returns b t2 => Returns b (t1 ++ t2)
    end
  end.

Definition emit (e : Event) : Outcome unit := Returns tt [e].

(** ** Platform calls *)

Definition IOPSCopyPowerSourcesInfo (P : Platform) : Outcome (option PowerSourcesInfo) :=
  match powerSourcesInfo P with
  | Some blob => emit (EvAcquire HpowerInfo);; mret (Some blob)
  | None => emit (EvFail HpowerInfo);; mret None
  end.

Definition IOPSCopyPowerSourcesList (blob : PowerSourcesInfo)
  : Outcome (option (list PowerSource)) :=
  match sourcesList blob with
  | Some l => emit (EvAcquire HpowerSources);; mret (Some l)
  | None => emit (EvFail HpowerSources);; mret None
  end.

(** [CFArrayGetValueAtIndex] followed by [IOPSGetPowerSourceDescription] on
    the element of index [i]; the description is borrowed, not owned. *)
Definition IOPSGetPowerSourceDescription (i : nat) (powerSource : PowerSource)
  : Outcome (option CFDictionary) :=
  emit (EvDescribe i);; mret (psDescription powerSource).

Definition IOServiceGetMatchingService (P : Platform) : Outcome (option RegistryEntry) :=
  match registryService P with
  | Some e => emit (EvAcquire HregistryEntry);; mret (Some e)
  | None => emit (EvFail HregistryEntry);; mret None
  end.

Definition IORegistryEntryCreateCFProperties (e : RegistryEntry)
  : Outcome (option CFDictionary) :=
  match entryProperties e with
  | Some d => emit (EvAcquire Hproperties);; mret (Some d)
  | None => emit (EvFail Hproperties);; mret None
  end.

Definition CFRelease (h : Handle) : Outcome unit := emit (EvRelease h).
Definition IOObjectRelease (h : Handle) : Outcome unit := emit (EvRelease h).

Definition CFDictionaryGetValue (d : CFDictionary) (key : string) : option CFType :=
  d !! key.

(** [CFStringCompare(v, CFSTR(s), 0) == kCFCompareEqualTo]. *)
Definition CFStringCompare (v : CFType) (s : string) : Outcome bool :=
  match v with
  | CFString t => mret (bool_decide (t = s))
  | _ => Undefined
  end.

(** [CFNumberGetValue(v, kCFNumberIntType, &x)]: the value stored in [x].
    The stored integer is converted as a C cast to [int] converts it: a
    number that fits is stored as it is, of any other the low 32 bits are
    kept.  The function's boolean result, which the code ignores, tells
    the two cases apart. *)
Definition CFNumberGetValue (v : CFType) : Outcome Z :=
  match v with
  | CFNumber n => mret ((n - INT_MIN) mod (INT_MAX - INT_MIN + 1) + INT_MIN)
  | _ => Undefined
  end.

(** [v == kCFBooleanTrue]: a comparison of references, defined for every
    value, true for the one true boolean object only. *)
Definition is_kCFBooleanTrue (v : option CFType) : bool :=
  bool_decide (v = Some (CFBoolean true)).

(** ** The function *)

(** The statement [if (num) CFNumberGetValue(num, kCFNumberIntType, &info.f);]
    where [store] is the assignment to the member [f]. *)
Definition storeNumber (num : option CFType) (store : Z → BatteryInfo → BatteryInfo)
    (info : BatteryInfo) : Outcome BatteryInfo :=
  match num with
  | Some num => v ← CFNumberGetValue num; mret (store v info)
  | None => mret info
  end.

(** Lines 38-71: the body of the [if] that recognises the internal battery. *)
Definition readDescription (description : CFDictionary) (info : BatteryInfo)
  : Outcome BatteryInfo :=
  let currentCap := CFDictionaryGetValue description kIOPSCurrentCapacityKey in
  info ← storeNumber currentCap set_currentCapacity info;
  let isCharging := CFDictionaryGetValue description kIOPSIsChargingKey in
  let info := if is_kCFBooleanTrue isCharging then set_isCharging 1 info else info in
  let powerSourceState := CFDictionaryGetValue description kIOPSPowerSourceStateKey in
  info ← match powerSourceState with
         | Some powerSourceState =>
           eq ← CFStringCompare powerSourceState kIOPSACPowerValue;
           mret (if eq : bool then set_isPlugged 1 info else info)
         | None => mret info
         end;
  let timeToEmpty := CFDictionaryGetValue description kIOPSTimeToEmptyKey in
  info ← storeNumber timeToEmpty set_timeToEmpty info;
  let timeToFull := CFDictionaryGetValue description kIOPSTimeToFullChargeKey in
  info ← storeNumber timeToFull set_timeToFull info;
  mret info.

(** Lines 27-75: the [for] loop, entered with index [i] and the elements
    from [i] on.  [continue] and the end of the body go to the next
    element; [break] returns. *)
Fixpoint scanPowerSources (i : nat) (powerSources : list PowerSource)
    (info : BatteryInfo) : Outcome BatteryInfo :=
  match powerSources with
  | [] => mret info
  | powerSource :: rest =>
    description ← IOPSGetPowerSourceDescription i powerSource;
    match description with
    | None => scanPowerSources (S i) rest info
    | Some description =>
      match CFDictionaryGetValue description kIOPSTypeKey with
      | None => scanPowerSources (S i) rest info
      | Some type =>
        eq ← CFStringCompare type kIOPSInternalBatteryType;
        if eq : bool
        then readDescription description info
        else scanPowerSources (S i) rest info
      end
    end
  end.

(** Lines 81-118: the I/O Registry part. *)
Definition readRegistry (P : Platform) (info : BatteryInfo) : Outcome BatteryInfo :=
  powerSource ← IOServiceGetMatchingService P;
  match powerSource with
  | None => mret info
  | Some powerSource =>
    properties ← IORegistryEntryCreateCFProperties powerSource;
    info ← match properties with
           | None => mret info
           | Some properties =>
             let maxCap := CFDictionaryGetValue properties "AppleRawMaxCapacity" in
             info ← storeNumber maxCap set_maxCapacity info;
             let designCap := CFDictionaryGetValue properties "DesignCapacity" in
             info ← storeNumber designCap set_designCapacity info;
             let cycles := CFDictionaryGetValue properties "CycleCount" in
             info ← storeNumber cycles set_cycleCount info;
             let voltage := CFDictionaryGetValue properties "Voltage" in
             info ← storeNumber voltage set_voltage info;
             let amperage := CFDictionaryGetValue properties "Amperage" in
             info ← storeNumber amperage set_amperage info;
             CFRelease Hproperties;;
             mret info
           end;
    IOObjectRelease HregistryEntry;;
    mret info
  end.

Definition getBatteryInfo (P : Platform) : Outcome BatteryInfo :=
  let info := zeroInfo in
  powerInfo ← IOPSCopyPowerSourcesInfo P;
  match powerInfo with
  | None => mret info
  | Some powerInfo =>
    powerSources ← IOPSCopyPowerSourcesList powerInfo;
    match powerSources with
    | None => CFRelease HpowerInfo;; mret info
    | Some powerSources =>
      info ← scanPowerSources 0 powerSources info;
      CFRelease HpowerSources;;
      CFRelease HpowerInfo;;
      readRegistry P info
    end
  end.

(** ** Vocabulary of the properties *)

(** The conversion [CFNumberGetValue] applies to a stored integer. *)
Definition toInt (n : Z) : Z := (n - INT_MIN) mod (INT_MAX - INT_MIN + 1) + INT_MIN.

Definition isInt (z : Z) : Prop := INT_MIN ≤ z ≤ INT_MAX.

(** Every member holds a value of type [int]. *)
Definition populated (i : BatteryInfo) : Prop :=
  isInt (currentCapacity i) ∧ isInt (maxCapacity i) ∧ isInt (designCapacity i) ∧
  isInt (cycleCount i) ∧ isInt (voltage i) ∧ isInt (amperage i) ∧
  isInt (isCharging i) ∧ isInt (isPlugged i) ∧
  isInt (timeToEmpty i) ∧ isInt (timeToFull i).

(** The typing of the keys the code reads, as the SDK documents it: the
    value under a string key is a string when present, the value under a
    number key is a number when present.  The charging flag is compared by
    reference, so any value may stand there. *)
Definition stringOrAbsent (v : option CFType) : bool :=
  match v with
  | None | Some (CFString _) => true
  | Some _ => false
  end.

Definition numberOrAbsent (v : option CFType) : bool :=
  match v with
  | None | Some (CFNumber _) => true
  | Some _ => false
  end.

Definition wellTypedDescription (d : CFDictionary) : bool :=
  stringOrAbsent (d !! kIOPSTypeKey) &&
  numberOrAbsent (d !! kIOPSCurrentCapacityKey) &&
  stringOrAbsent (d !! kIOPSPowerSourceStateKey) &&
  numberOrAbsent (d !! kIOPSTimeToEmptyKey) &&
  numberOrAbsent (d !! kIOPSTimeToFullChargeKey).

Definition wellTypedSource (s : PowerSource) : bool :=
  match psDescription s with
  | Some d => wellTypedDescription d
  | None => true
  end.

Definition wellTypedProperties (d : CFDictionary) : bool :=
  numberOrAbsent (d !! "AppleRawMaxCapacity") &&
  numberOrAbsent (d !! "DesignCapacity") &&
  numberOrAbsent (d !! "CycleCount") &&
  numberOrAbsent (d !! "Voltage") &&
  numberOrAbsent (d !! "Amperage").

(** The list of power sources, when both the blob and the list exist. *)
Definition enumerated (P : Platform) : option (list PowerSource) :=
  powerSourcesInfo P ≫= sourcesList.

(** The property dictionary, when both the entry and the dictionary exist. *)
Definition registryProperties (P : Platform) : option CFDictionary :=
  registryService P ≫= entryProperties.

(** A listed source is an internal battery when it has a description whose
    declared type is the internal-battery type. *)
Definition isInternalBattery (s : PowerSource) : bool :=
  match psDescription s with
  | Some d => bool_decide (d !! kIOPSTypeKey = Some (CFString kIOPSInternalBatteryType))
  | None => false
  end.

(** The description of the first internal battery of a list. *)
Fixpoint firstInternalBattery (l : list PowerSource) : option CFDictionary :=
  match l with
  | [] => None
  | s :: rest =>
    if isInternalBattery s then psDescription s else firstInternalBattery rest
  end.

Definition matchedEntry (P : Platform) : option CFDictionary :=
  enumerated P ≫= firstInternalBattery.

(** How many elements, from the head of the list, are up to and including
    the first internal battery (all of them when there is none). *)
Fixpoint scanExtent (l : list PowerSource) : nat :=
  match l with
  | [] => 0
  | s :: rest => if isInternalBattery s then 1 else S (scanExtent rest)
  end.

(** The entries the scan looks at. *)
Definition examined (l : list PowerSource) : list PowerSource :=
  take (scanExtent l) l.

(** The platform honours the typing on the listed sources the scan looks
    at and on the registry properties.  Nothing is asked of the entries
    behind the first internal battery. *)
Definition wellTyped (P : Platform) : bool :=
  match enumerated P with
  | Some l => forallb wellTypedSource (examined l)
  | None => true
  end &&
  match registryProperties P with
  | Some d => wellTypedProperties d
  | None => true
  end.

(** The integer found under [key], converted, or [old] when the key is
    absent. *)
Definition numberAt (d : CFDictionary) (key : string) (old : Z) : Z :=
  match d !! key with
  | Some (CFNumber n) => toInt n
  | _ => old
  end.

(** The structure after the battery's description has been read into it. *)
Definition described (d : CFDictionary) (i : BatteryInfo) : BatteryInfo :=
  mkBatteryInfo
    (numberAt d kIOPSCurrentCapacityKey (currentCapacity i))
    (maxCapacity i) (designCapacity i) (cycleCount i) (voltage i) (amperage i)
    (if bool_decide (d !! kIOPSIsChargingKey = Some (CFBoolean true))
     then 1 else isCharging i)
    (if bool_decide (d !! kIOPSPowerSourceStateKey = Some (CFString kIOPSACPowerValue))
     then 1 else isPlugged i)
    (numberAt d kIOPSTimeToEmptyKey (timeToEmpty i))
    (numberAt d kIOPSTimeToFullChargeKey (timeToFull i)).

(** The structure after the registry properties have been read into it. *)
Definition registered (d : CFDictionary) (i : BatteryInfo) : BatteryInfo :=
  mkBatteryInfo
    (currentCapacity i)
    (numberAt d "AppleRawMaxCapacity" (maxCapacity i))
    (numberAt d "DesignCapacity" (designCapacity i))
    (numberAt d "CycleCount" (cycleCount i))
    (numberAt d "Voltage" (voltage i))
    (numberAt d "Amperage" (amperage i))
    (isCharging i) (isPlugged i) (timeToEmpty i) (timeToFull i).

Definition optionally {A} (f : A → BatteryInfo → BatteryInfo) (o : option A)
    (i : BatteryInfo) : BatteryInfo :=
  match o with
  | Some a => f a i
  | None => i
  end.

(** The calls of the registry part. *)
Definition registryCalls (P : Platform) : list Event :=
  match registryService P with
  | None => [EvFail HregistryEntry]
  | Some e =>
    match entryProperties e with
    | None => [EvAcquire HregistryEntry; EvFail Hproperties; EvRelease HregistryEntry]
    | Some _ => [EvAcquire HregistryEntry; EvAcquire Hproperties;
                 EvRelease Hproperties; EvRelease HregistryEntry]
    end
  end.

(** The calls of the scan over a list entered at index 0. *)
Definition scanCalls (l : list PowerSource) : list Event :=
  EvDescribe <$> seq 0 (scanExtent l).

(** The power-source members and the registry members of two structures
    agree. *)
Definition samePowerSourceFields (a b : BatteryInfo) : Prop :=
  currentCapacity a = currentCapacity b ∧ isCharging a = isCharging b ∧
  isPlugged a = isPlugged b ∧ timeToEmpty a = timeToEmpty b ∧
  timeToFull a = timeToFull b.

Definition powerSourceFieldsZero (i : BatteryInfo) : Prop :=
  currentCapacity i = 0 ∧ isCharging i = 0 ∧ isPlugged i = 0 ∧
  timeToEmpty i = 0 ∧ timeToFull i = 0.

Definition registryFieldsZero (i : BatteryInfo) : Prop :=
  maxCapacity i = 0 ∧ designCapacity i = 0 ∧ cycleCount i = 0 ∧
  voltage i = 0 ∧ amperage i = 0.

(** The registry part was entered: the matching call appears in the trace. *)
Definition registryReached (tr : list Event) : Prop :=
  EvAcquire HregistryEntry ∈ tr ∨ EvFail HregistryEntry ∈ tr.

(** *** Handle accounting *)

(** The set of objects owned after the calls of [tr], starting from the set
    [live]; [None] when an object is handed over while already owned, or
    released while not owned. *)
Fixpoint audit (live : list Handle) (tr : list Event) : option (list Handle) :=
  match tr with
  | [] => Some live
  | EvAcquire h :: tr =>
    if bool_decide (h ∈ live) then None else audit (h :: live) tr
  | EvRelease h :: tr =>
    if bool_decide (h ∈ live)
    then audit (filter (λ x, x ≠ h) live) tr
    else None
  | _ :: tr => audit live tr
  end.

Definition acquisitions (h : Handle) (tr : list Event) : nat :=
  length (filter (λ e, e = EvAcquire h) tr).

Definition releases (h : Handle) (tr : list Event) : nat :=
  length (filter (λ e, e = EvRelease h) tr).

(** The indices of the listed sources whose description was asked for, in
    the order of the calls. *)
Definition describes (tr : list Event) : list nat :=
  omap (λ e, match e with EvDescribe i => Some i | _ => None end) tr.

(** Some listed source is an internal battery. *)
Definition internalBatteryPresent (P : Platform) : Prop :=
  ∃ l s, enumerated P = Some l ∧ s ∈ l ∧ isInternalBattery s = true.

Definition notInternal (l : list PowerSource) : Prop :=
  Forall (λ s, isInternalBattery s = false) l.

(** The five power-source members hold what the description [d] gives:
    a number converted to [int], or 0 when the key is absent; 1 for the
    flags exactly when the value is the true boolean, respectively the
    AC-power string. *)
Definition powerSourceFieldsFrom (d : CFDictionary) (i : BatteryInfo) : Prop :=
  currentCapacity i = numberAt d kIOPSCurrentCapacityKey 0 ∧
  isCharging i =
    (if bool_decide (d !! kIOPSIsChargingKey = Some (CFBoolean true))
     then 1 else 0) ∧
  isPlugged i =
    (if bool_decide (d !! kIOPSPowerSourceStateKey = Some (CFString kIOPSACPowerValue))
     then 1 else 0) ∧
  timeToEmpty i = numberAt d kIOPSTimeToEmptyKey 0 ∧
  timeToFull i = numberAt d kIOPSTimeToFullChargeKey 0.

(** *** Normal operation *)

(** The description gives no estimate under [key]: the key is absent or the
    number under it is 0. *)
Definition reportsNoEstimate (d : CFDictionary) (key : string) : bool :=
  match d !! key with
  | None | Some (CFNumber 0) => true
  | Some _ => false
  end.

(** The estimates of a description follow the charge direction: while the
    battery charges there is no estimate of the time to empty, and while
    it does not there is no estimate of the time to full charge. *)
Definition followsChargeDirection (d : CFDictionary) : bool :=
  if bool_decide (d !! kIOPSIsChargingKey = Some (CFBoolean true))
  then reportsNoEstimate d kIOPSTimeToEmptyKey
  else reportsNoEstimate d kIOPSTimeToFullChargeKey.

(** The platform is in normal operation when the estimates of the matched
    battery follow its charge direction. *)
Definition normalOperation (P : Platform) : bool :=
  match matchedEntry P with
  | Some d => followsChargeDirection d
  | None => true
  end.

(** *** The run as a whole *)

(** The snapshot and the calls of a run on a well-typed platform. *)
Definition snapshot (P : Platform) : BatteryInfo :=
  match enumerated P with
  | Some l =>
    optionally registered (registryProperties P)
      (optionally described (firstInternalBattery l) zeroInfo)
  | None => zeroInfo
  end.

Definition calls (P : Platform) : list Event :=
  match powerSourcesInfo P with
  | None => [EvFail HpowerInfo]
  | Some blob =>
    match sourcesList blob with
    | None => [EvAcquire HpowerInfo; EvFail HpowerSources; EvRelease HpowerInfo]
    | Some l =>
      [EvAcquire HpowerInfo; EvAcquire HpowerSources] ++ scanCalls l ++
      [EvRelease HpowerSources; EvRelease HpowerInfo] ++ registryCalls P
    end
  end.

(** ** Sample platforms *)

Definition battery (cap : Z) (charging : bool) (state : string) (tte ttf : Z)
  : CFDictionary :=
  <[kIOPSTypeKey := CFString kIOPSInternalBatteryType]>
  (<[kIOPSCurrentCapacityKey := CFNumber cap]>
  (<[kIOPSIsChargingKey := CFBoolean charging]>
  (<[kIOPSPowerSourceStateKey := CFString state]>
  (<[kIOPSTimeToEmptyKey := CFNumber tte]>
  (<[kIOPSTimeToFullChargeKey := CFNumber ttf]> ∅))))).

Definition ups : CFDictionary :=
  <[kIOPSTypeKey := CFString "UPS"]>
  (<[kIOPSCurrentCapacityKey := CFNumber 64]>
  (<[kIOPSPowerSourceStateKey := CFString "AC Power"]> ∅)).

Definition smartBattery : CFDictionary :=
  <["AppleRawMaxCapacity" := CFNumber 4382]>
  (<["DesignCapacity" := CFNumber 4790]>
  (<["CycleCount" := CFNumber 312]>
  (<["Voltage" := CFNumber 12450]>
  (<["Amperage" := CFNumber (-1520)]> ∅)))).

Definition listing (l : list PowerSource) (reg : option RegistryEntry) : Platform :=
  mkPlatform (Some (mkPowerSourcesInfo (Some l))) reg.

Definition withSmartBattery : option RegistryEntry :=
  Some (mkRegistryEntry (Some smartBattery)).

(** A laptop charging at 87 percent. *)
Definition laptopCharging : Platform :=
  listing [mkPowerSource (Some (battery 87 true "AC Power" 0 45))] withSmartBattery.

(** A laptop on the charger with a full battery. *)
Definition laptopFull : Platform :=
  listing [mkPowerSource (Some (battery 100 false "AC Power" 0 0))] withSmartBattery.

(** A laptop on battery, the registry service missing. *)
Definition laptopNoRegistry : Platform :=
  listing [mkPowerSource (Some (battery 52 false "Battery Power" 175 0))] None.

(** The same laptop, the registry entry found but its properties unreadable. *)
Definition laptopNoProperties : Platform :=
  listing [mkPowerSource (Some (battery 52 false "Battery Power" 175 0))]
    (Some (mkRegistryEntry None)).

(** No battery among the listed sources, the registry entry present. *)
Definition upsOnly : Platform :=
  listing [mkPowerSource (Some ups)] withSmartBattery.

(** A battery whose capacity is reported in mAh against a maximum in mAh. *)
Definition laptopRawCapacity : Platform :=
  listing [mkPowerSource (Some (battery 4382 false "Battery Power" 175 0))]
    withSmartBattery.

(** A battery for which both estimates are reported. *)
Definition laptopBothEstimates : Platform :=
  listing [mkPowerSource (Some (battery 60 true "AC Power" 120 45))] withSmartBattery.

(** A source without description and a UPS listed before two batteries. *)
Definition crowded : Platform :=
  listing [mkPowerSource (Some ups); mkPowerSource None;
           mkPowerSource (Some (battery 87 true "AC Power" 0 45));
           mkPowerSource (Some (battery 12 false "Battery Power" 30 0))]
    withSmartBattery.

Definition noDirectory : Platform := mkPlatform None withSmartBattery.

Definition noList : Platform :=
  mkPlatform (Some (mkPowerSourcesInfo None)) withSmartBattery.

(** ** Vocabulary of the further properties *)

(** The keys the code reads in a power-source description (lines 35-69)
    and in the registry properties (lines 92-111). *)
Definition descriptionKeys : list string :=
  [kIOPSTypeKey; kIOPSCurrentCapacityKey; kIOPSIsChargingKey;
   kIOPSPowerSourceStateKey; kIOPSTimeToEmptyKey; kIOPSTimeToFullChargeKey].

Definition registryKeys : list string :=
  ["AppleRawMaxCapacity"; "DesignCapacity"; "CycleCount"; "Voltage"; "Amperage"].

(** Two dictionaries answer alike on the keys of [keys]. *)
Definition agreeOn (keys : list string) (d d' : CFDictionary) : Prop :=
  Forall (λ k, d !! k = d' !! k) keys.

(** The objects owned after one more call. *)
Definition own (live : list Handle) (e : Event) : list Handle :=
  match e with
  | EvAcquire h => h :: live
  | EvRelease h => filter (λ x, x ≠ h) live
  | _ => live
  end.

(** The objects a call is handed, as the C source writes its arguments:
    [IOPSCopyPowerSourcesList(powerInfo)],
    [CFArrayGetValueAtIndex(powerSources, i)] with
    [IOPSGetPowerSourceDescription(powerInfo, powerSource)],
    [IORegistryEntryCreateCFProperties(powerSource, ...)], and the object
    itself for a release. *)
Definition handed (e : Event) : list Handle :=
  match e with
  | EvAcquire HpowerSources | EvFail HpowerSources => [HpowerInfo]
  | EvAcquire Hproperties | EvFail Hproperties => [HregistryEntry]
  | EvDescribe _ => [HpowerInfo; HpowerSources]
  | EvRelease h => [h]
  | _ => []
  end.

(** Every call of [tr] is handed objects owned at that point. *)
Fixpoint usesOwned (live : list Handle) (tr : list Event) : bool :=
  match tr with
  | [] => true
  | e :: tr =>
    forallb (λ h, bool_decide (h ∈ live)) (handed e) && usesOwned (own live e) tr
  end.

(** The stack of owned objects after [tr] when every release is of the
    object acquired last among those still owned; [None] otherwise. *)
Fixpoint nested (stack : list Handle) (tr : list Event) : option (list Handle) :=
  match tr with
  | [] => Some stack
  | EvAcquire h :: tr => nested (h :: stack) tr
  | EvRelease h :: tr =>
    match stack with
    | top :: below => if bool_decide (top = h) then nested below tr else None
    | [] => None
    end
  | _ :: tr => nested stack tr
  end.

(** The call [IOServiceGetMatchingService], whatever it answers. *)
Definition isRegistryLookup (e : Event) : bool :=
  bool_decide (e = EvAcquire HregistryEntry ∨ e = EvFail HregistryEntry).

(** The objects owned at the first call of [tr] that satisfies [p]. *)
Fixpoint ownedWhen (p : Event → bool) (live : list Handle) (tr : list Event)
  : option (list Handle) :=
  match tr with
  | [] => None
  | e :: tr => if p e then Some live else ownedWhen p (own live e) tr
  end.

(** The registry keys and the members they are stored in (lines 92-113). *)
Definition registryMembers : list (string * (BatteryInfo → Z)) :=
  [("AppleRawMaxCapacity", maxCapacity); ("DesignCapacity", designCapacity);
   ("CycleCount", cycleCount); ("Voltage", voltage); ("Amperage", amperage)].

(** A description that carries, beside the keys read, the maximum capacity
    of the enumeration service, which lines 43-46 no longer read. *)
Definition batteryWithMax : CFDictionary :=
  <["Max Capacity" := CFNumber 100]> (battery 87 true "AC Power" 0 45).

(** ** Proof tactics *)

(** Splits [populated] into its ten members without opening [isInt]. *)
Ltac split_populated :=
  unfold populated;
  repeat match goal with |- isInt _ ∧ _ => split end.

(** Membership in an explicit trace. *)
Ltac absent_from_trace H :=
  repeat (apply elem_of_cons in H as [H|H]; [discriminate H|]);
  by apply elem_of_nil in H.

Ltac present_in_trace :=
  repeat first [apply list_elem_of_here | apply list_elem_of_further].

(** * Properties *)

(** ** The monad laws *)

Lemma bind_ret_l {A B} (a : A) (f : A → Outcome B) : mret a ≫= f = f a.
Proof. unfold mret, mbind, Outcome_ret, Outcome_bind. by destruct (f a). Qed.

Lemma bind_ret_r {A} (m : Outcome A) : m ≫= mret = m.
Proof. destruct m as [a tr|]; [|done]. simpl. by rewrite app_nil_r. Qed.

Lemma bind_assoc {A B C} (m : Outcome A) (f : A → Outcome B) (g : B → Outcome C) :
  (m ≫= f) ≫= g = m ≫= (λ a, f a ≫= g).
Proof.
  destruct m as [a t1|]; [|done]. simpl.
  destruct (f a) as [b t2|]; [|done]. simpl.
  destruct (g b) as [c t3|]; [|done]. by rewrite app_assoc.
Qed.

(** ** The parts of the function *)

Lemma toInt_isInt n : isInt (toInt n).
Proof.
  unfold isInt, toInt, INT_MIN, INT_MAX.
  pose proof (Z.mod_pos_bound (n - -2147483648) (2147483647 - -2147483648 + 1)).
  lia.
Qed.

Lemma toInt_id n : isInt n → toInt n = n.
Proof.
  unfold isInt, toInt, INT_MIN, INT_MAX. intros Hn.
  rewrite Z.mod_small; lia.
Qed.

Lemma storeNumber_spec (d : CFDictionary) key store info :
  numberOrAbsent (d !! key) = true →
  storeNumber (CFDictionaryGetValue d key) store info =
  Returns (match d !! key with
           | Some (CFNumber n) => store (toInt n) info
           | _ => info
           end) [].
Proof.
  unfold storeNumber, CFDictionaryGetValue.
  destruct (d !! key) as [[s|n|b]|]; simpl; done.
Qed.

Lemma readDescription_spec d info :
  wellTypedDescription d = true →
  readDescription d info = Returns (described d info) [].
Proof.
  unfold wellTypedDescription. rewrite !andb_true_iff.
  intros [[[[_ Hcap] Hstate] Htte] Httf].
  unfold readDescription, described, numberAt, storeNumber,
    CFDictionaryGetValue, is_kCFBooleanTrue.
  destruct (d !! kIOPSCurrentCapacityKey) as [[?|?|?]|]; try done;
  destruct (d !! kIOPSTimeToEmptyKey) as [[?|?|?]|]; try done;
  destruct (d !! kIOPSTimeToFullChargeKey) as [[?|?|?]|]; try done;
  destruct (d !! kIOPSPowerSourceStateKey) as [[s|?|?]|]; try done;
  destruct info; simpl; repeat case_bool_decide; simplify_eq; done.
Qed.

Lemma examined_cons s rest :
  examined (s :: rest) =
  s :: (if isInternalBattery s then [] else examined rest).
Proof. unfold examined. simpl. by destruct (isInternalBattery s). Qed.

Lemma scanPowerSources_spec l : ∀ i info,
  forallb wellTypedSource (examined l) = true →
  scanPowerSources i l info =
  Returns (optionally described (firstInternalBattery l) info)
          (EvDescribe <$> seq i (scanExtent l)).
Proof.
  induction l as [|s rest IH]; intros i info Hty; [done|].
  rewrite examined_cons in Hty. simpl in Hty.
  apply andb_true_iff in Hty as [Hs Hrest].
  simpl. unfold IOPSGetPowerSourceDescription, isInternalBattery, wellTypedSource in *.
  destruct (psDescription s) as [d|]; simpl.
  - unfold CFDictionaryGetValue.
    assert (Hd := Hs). unfold wellTypedDescription in Hd.
    rewrite !andb_true_iff in Hd. destruct Hd as [[[[Hd _] _] _] _].
    destruct (d !! kIOPSTypeKey) as [[t|?|?]|]; try done; simpl.
    + case_bool_decide; case_bool_decide; simplify_eq.
      * by rewrite readDescription_spec.
      * by rewrite IH.
    + by rewrite IH.
  - by rewrite IH.
Qed.

Lemma readRegistry_spec P info :
  wellTyped P = true →
  readRegistry P info =
  Returns (optionally registered (registryProperties P) info) (registryCalls P).
Proof.
  unfold wellTyped, registryProperties, readRegistry, registryCalls,
    IOServiceGetMatchingService, IORegistryEntryCreateCFProperties.
  rewrite andb_true_iff. intros [_ Hty].
  destruct (registryService P) as [e|]; simpl in *; [|done].
  destruct (entryProperties e) as [d|]; simpl in *; [|done].
  unfold wellTypedProperties in Hty. rewrite !andb_true_iff in Hty.
  destruct Hty as [[[[Hmax Hdesign] Hcycles] Hvolt] Hamp].
  unfold registered, numberAt, storeNumber, CFDictionaryGetValue.
  destruct (d !! "AppleRawMaxCapacity") as [[?|?|?]|]; try done;
  destruct (d !! "DesignCapacity") as [[?|?|?]|]; try done;
  destruct (d !! "CycleCount") as [[?|?|?]|]; try done;
  destruct (d !! "Voltage") as [[?|?|?]|]; try done;
  destruct (d !! "Amperage") as [[?|?|?]|]; try done;
  destruct info; done.
Qed.

Lemma getBatteryInfo_spec P :
  wellTyped P = true → getBatteryInfo P = Returns (snapshot P) (calls P).
Proof.
  intros Hty. assert (Hreg := λ info, readRegistry_spec P info Hty).
  unfold getBatteryInfo, snapshot, calls, IOPSCopyPowerSourcesInfo,
    IOPSCopyPowerSourcesList.
  destruct P as [[[[l|]]|] reg]; simpl in *; try done.
  apply andb_true_iff in Hty as [Hl _].
  rewrite (scanPowerSources_spec l 0 zeroInfo Hl). simpl.
  by rewrite Hreg.
Qed.

(** The run on a charging laptop: capacity 87, charging, on AC power. *)
Example laptopCharging_run :
  getBatteryInfo laptopCharging =
  Returns (mkBatteryInfo 87 4382 4790 312 12450 (-1520) 1 1 0 45)
    [EvAcquire HpowerInfo; EvAcquire HpowerSources; EvDescribe 0;
     EvRelease HpowerSources; EvRelease HpowerInfo;
     EvAcquire HregistryEntry; EvAcquire Hproperties;
     EvRelease Hproperties; EvRelease HregistryEntry].
Proof. vm_compute. reflexivity. Qed.

(** The typing assumption is not idle: a number under the type key reaches
    [CFStringCompare]. *)
Example number_as_type_is_undefined :
  getBatteryInfo
    (listing [mkPowerSource (Some (<[kIOPSTypeKey := CFNumber 3]> ∅))] None)
  = Undefined.
Proof. vm_compute. reflexivity. Qed.

(** Once the battery is matched the rest of the list is not looked at,
    whatever it holds. *)
Example number_as_type_after_match :
  ∃ tr, getBatteryInfo
          (listing [mkPowerSource (Some (battery 52 false "Battery Power" 175 0));
                    mkPowerSource (Some (<[kIOPSTypeKey := CFNumber 3]> ∅))] None)
        = Returns (mkBatteryInfo 52 0 0 0 0 0 0 0 175 0) tr.
Proof. eexists. vm_compute. reflexivity. Qed.

(** ** The scan *)

Lemma isInternalBattery_description s :
  isInternalBattery s = true →
  ∃ d, psDescription s = Some d ∧
       d !! kIOPSTypeKey = Some (CFString kIOPSInternalBatteryType).
Proof.
  unfold isInternalBattery. destruct (psDescription s) as [d|]; [|done].
  intros H%bool_decide_eq_true. eauto.
Qed.

Lemma firstInternalBattery_none l :
  notInternal l → firstInternalBattery l = None ∧ scanExtent l = length l.
Proof.
  induction 1 as [|s l Hs _ [IH1 IH2]]; [done|].
  simpl. rewrite Hs. auto.
Qed.

Lemma firstInternalBattery_app pre m post :
  notInternal pre → isInternalBattery m = true →
  firstInternalBattery (pre ++ m :: post) = psDescription m ∧
  scanExtent (pre ++ m :: post) = S (length pre).
Proof.
  intros Hpre Hm. induction Hpre as [|s l Hs _ [IH1 IH2]]; simpl.
  - by rewrite Hm.
  - rewrite Hs. auto.
Qed.

Lemma firstInternalBattery_is_None l :
  firstInternalBattery l = None ↔ notInternal l.
Proof.
  split; [|by intros []%firstInternalBattery_none].
  induction l as [|s l IH]; simpl; [constructor|].
  destruct (isInternalBattery s) eqn:Hs.
  - destruct (isInternalBattery_description s Hs) as (d & -> & _). done.
  - intros H. constructor; [done|by apply IH].
Qed.

Lemma matchedEntry_present P :
  internalBatteryPresent P ↔ is_Some (matchedEntry P).
Proof.
  unfold internalBatteryPresent, matchedEntry.
  destruct (enumerated P) as [l|]; simpl.
  - split.
    + intros (l' & s & [= <-] & Hin & Hs).
      destruct (firstInternalBattery l) eqn:E; [eauto|].
      apply firstInternalBattery_is_None in E.
      unfold notInternal in E. rewrite Forall_forall in E.
      apply E in Hin. congruence.
    + intros [d Hd].
      destruct (decide (notInternal l)) as [Hn|Hn].
      * apply firstInternalBattery_is_None in Hn. congruence.
      * apply not_Forall_Exists in Hn; [|apply _].
        apply Exists_exists in Hn as (s & Hin & Hs).
        exists l, s. simpl in Hs. split; [done|split; [done|]].
        by destruct (isInternalBattery s).
  - split; [by intros (? & ? & ? & _)|by intros []].
Qed.

Lemma describes_app t1 t2 : describes (t1 ++ t2) = describes t1 ++ describes t2.
Proof. apply omap_app. Qed.

Lemma describes_scan (l : list nat) : describes (EvDescribe <$> l) = l.
Proof. induction l as [|i l IH]; [done|]. cbn. f_equal. exact IH. Qed.

Lemma describes_registryCalls P : describes (registryCalls P) = [].
Proof.
  unfold registryCalls.
  destruct (registryService P) as [[[d|]]|]; done.
Qed.

Lemma describes_calls l reg :
  describes (calls (listing l reg)) = seq 0 (scanExtent l).
Proof.
  unfold calls, listing, scanCalls. cbn [powerSourcesInfo sourcesList].
  rewrite !describes_app, describes_scan, describes_registryCalls.
  cbn. by rewrite app_nil_r.
Qed.

Lemma elem_of_describes tr j : EvDescribe j ∈ tr ↔ j ∈ describes tr.
Proof.
  unfold describes. rewrite list_elem_of_omap. split.
  - intros H. exists (EvDescribe j). done.
  - intros ([] & H & ?); simplify_eq. done.
Qed.

(** ** Values of type [int] *)

Lemma numberAt_isInt (d : CFDictionary) key old :
  isInt old → isInt (numberAt d key old).
Proof.
  unfold numberAt. destruct (d !! key) as [[?|n|?]|]; auto using toInt_isInt.
Qed.

Lemma zeroInfo_populated : populated zeroInfo.
Proof. unfold populated, isInt, INT_MIN, INT_MAX. simpl. lia. Qed.

Lemma isInt_flag (b : bool) z : isInt z → isInt (if b then 1 else z).
Proof. destruct b; [|done]. unfold isInt, INT_MIN, INT_MAX. lia. Qed.

Lemma described_populated d i : populated i → populated (described d i).
Proof.
  intros (?&?&?&?&?&?&?&?&?&?). split_populated; simpl;
    auto using numberAt_isInt, isInt_flag.
Qed.

Lemma registered_populated d i : populated i → populated (registered d i).
Proof.
  intros (?&?&?&?&?&?&?&?&?&?). split_populated; simpl;
    auto using numberAt_isInt.
Qed.

Lemma optionally_populated {A} (f : A → BatteryInfo → BatteryInfo) o i :
  (∀ a j, populated j → populated (f a j)) → populated i →
  populated (optionally f o i).
Proof. destruct o; simpl; auto. Qed.

Lemma snapshot_populated P : populated (snapshot P).
Proof.
  unfold snapshot. destruct (enumerated P); [|apply zeroInfo_populated].
  apply optionally_populated; [apply registered_populated|].
  apply optionally_populated; [apply described_populated|].
  apply zeroInfo_populated.
Qed.

(** ** Handle accounting *)

Lemma audit_describe live (l : list nat) tr :
  audit live ((EvDescribe <$> l) ++ tr) = audit live tr.
Proof. induction l as [|i l IH]; [done|]. exact IH. Qed.

Lemma acquisitions_describe h (l : list nat) tr :
  acquisitions h ((EvDescribe <$> l) ++ tr) = acquisitions h tr.
Proof.
  unfold acquisitions. induction l as [|i l IH]; [done|].
  cbn [fmap list_fmap app]. rewrite filter_cons_False; [exact IH|done].
Qed.

Lemma releases_describe h (l : list nat) tr :
  releases h ((EvDescribe <$> l) ++ tr) = releases h tr.
Proof.
  unfold releases. induction l as [|i l IH]; [done|].
  cbn [fmap list_fmap app]. rewrite filter_cons_False; [exact IH|done].
Qed.

Lemma acquisitions_app h t1 t2 :
  acquisitions h (t1 ++ t2) = (acquisitions h t1 + acquisitions h t2)%nat.
Proof. unfold acquisitions. by rewrite filter_app, length_app. Qed.

Lemma releases_app h t1 t2 :
  releases h (t1 ++ t2) = (releases h t1 + releases h t2)%nat.
Proof. unfold releases. by rewrite filter_app, length_app. Qed.

Lemma counts_describe h (l : list nat) pre post :
  acquisitions h (pre ++ (EvDescribe <$> l) ++ post) = acquisitions h (pre ++ post) ∧
  releases h (pre ++ (EvDescribe <$> l) ++ post) = releases h (pre ++ post).
Proof.
  rewrite !(acquisitions_app h pre), !(releases_app h pre).
  by rewrite acquisitions_describe, releases_describe.
Qed.

Lemma calls_balanced P :
  audit [] (calls P) = Some [] ∧
  ∀ h, acquisitions h (calls P) = releases h (calls P) ∧
       (releases h (calls P) ≤ 1)%nat.
Proof.
  unfold calls, scanCalls.
  destruct P as [[[[l|]]|] reg];
    cbn [powerSourcesInfo sourcesList registryService entryProperties].
  - split.
    + change (audit [HpowerSources; HpowerInfo]
                ((EvDescribe <$> seq 0 (scanExtent l)) ++
                 [EvRelease HpowerSources; EvRelease HpowerInfo] ++
                 registryCalls (mkPlatform (Some (mkPowerSourcesInfo (Some l))) reg))
              = Some []).
      rewrite audit_describe. by destruct reg as [[[d|]]|].
    + intros h.
      destruct (counts_describe h (seq 0 (scanExtent l))
                  [EvAcquire HpowerInfo; EvAcquire HpowerSources]
                  ([EvRelease HpowerSources; EvRelease HpowerInfo] ++
                   registryCalls (mkPlatform (Some (mkPowerSourcesInfo (Some l))) reg)))
        as [-> ->].
      destruct reg as [[[d|]]|]; destruct h; vm_compute; split; (reflexivity || lia).
  - split; [done|]. intros h. destruct h; vm_compute; split; (reflexivity || lia).
  - split; [done|]. intros h. destruct h; vm_compute; split; (reflexivity || lia).
Qed.

(** ** Members of the snapshot *)

Lemma numberAt_absent (d : CFDictionary) key old :
  d !! key = None → numberAt d key old = old.
Proof. unfold numberAt. by intros ->. Qed.

Lemma numberAt_present (d : CFDictionary) key old n :
  d !! key = Some (CFNumber n) → numberAt d key old = toInt n.
Proof. unfold numberAt. by intros ->. Qed.

Lemma snapshot_powerSource_fields P :
  snapshot P = zeroInfo ∧ matchedEntry P = None ∧ enumerated P = None ∨
  powerSourceFieldsZero (snapshot P) ∧ matchedEntry P = None ∧ is_Some (enumerated P) ∨
  ∃ d, matchedEntry P = Some d ∧ powerSourceFieldsFrom d (snapshot P).
Proof.
  unfold snapshot, matchedEntry.
  destruct (enumerated P) as [l|]; simpl; [|by left].
  right. destruct (firstInternalBattery l) as [d|]; simpl.
  - right. exists d. by destruct (registryProperties P).
  - left. by destruct (registryProperties P).
Qed.

Lemma snapshot_registry_fields P :
  registryFieldsZero (snapshot P) ∧
    (enumerated P = None ∨ registryProperties P = None) ∨
  ∃ d, registryProperties P = Some d ∧ is_Some (enumerated P) ∧
       maxCapacity (snapshot P) = numberAt d "AppleRawMaxCapacity" 0 ∧
       designCapacity (snapshot P) = numberAt d "DesignCapacity" 0 ∧
       cycleCount (snapshot P) = numberAt d "CycleCount" 0 ∧
       voltage (snapshot P) = numberAt d "Voltage" 0 ∧
       amperage (snapshot P) = numberAt d "Amperage" 0.
Proof.
  unfold snapshot.
  destruct (enumerated P) as [l|]; simpl; [|left; split; [done|by left]].
  destruct (registryProperties P) as [d|]; simpl.
  - right. exists d. split; [done|]. split; [by eexists|].
    by destruct (firstInternalBattery l).
  - left. split; [|by right]. by destruct (firstInternalBattery l).
Qed.

(** ** Runs over an available list *)

Lemma listing_run_eq l l' reg :
  firstInternalBattery l = firstInternalBattery l' →
  scanExtent l = scanExtent l' →
  snapshot (listing l reg) = snapshot (listing l' reg) ∧
  calls (listing l reg) = calls (listing l' reg).
Proof.
  intros Hf He. unfold snapshot, calls, scanCalls, registryCalls. simpl.
  by rewrite Hf, He.
Qed.

Lemma listing_found l reg d :
  firstInternalBattery l = Some d →
  powerSourceFieldsFrom d (snapshot (listing l reg)).
Proof.
  intros Hf.
  destruct (snapshot_powerSource_fields (listing l reg))
    as [(_&Hn&_)|[(_&Hn&_)|(d'&Hd&Hfrom)]];
    unfold matchedEntry in *; simpl in *; congruence.
Qed.

Lemma listing_not_found l reg :
  firstInternalBattery l = None →
  powerSourceFieldsZero (snapshot (listing l reg)).
Proof.
  intros Hf.
  destruct (snapshot_powerSource_fields (listing l reg))
    as [(_&_&Hn)|[(Hz&_)|(d'&Hd&_)]]; [done|done|].
  unfold matchedEntry in *; simpl in *; congruence.
Qed.

Lemma wellTyped_listing l reg :
  wellTyped (listing l reg) = true ↔
  forallb wellTypedSource (examined l) = true ∧ wellTyped (listing [] reg) = true.
Proof. unfold wellTyped. simpl. by rewrite andb_true_iff. Qed.

(** A platform typed throughout is typed where the scan looks. *)
Lemma wellTyped_throughout l reg :
  forallb wellTypedSource l = true → wellTyped (listing [] reg) = true →
  wellTyped (listing l reg) = true.
Proof.
  intros Hl Hr. apply wellTyped_listing. split; [|done].
  unfold examined. rewrite <- (take_drop (scanExtent l) l), forallb_app in Hl.
  by apply andb_true_iff in Hl as [? _].
Qed.

Lemma examined_app pre m post :
  notInternal pre → isInternalBattery m = true →
  examined (pre ++ m :: post) = pre ++ [m].
Proof.
  intros Hpre Hm. induction Hpre as [|s l Hs _ IH]; simpl.
  - by rewrite examined_cons, Hm.
  - by rewrite examined_cons, Hs, IH.
Qed.

Lemma notInternal_app l1 l2 : notInternal (l1 ++ l2) ↔ notInternal l1 ∧ notInternal l2.
Proof. apply Forall_app. Qed.

Lemma firstInternalBattery_skip l1 s l2 :
  isInternalBattery s = false →
  firstInternalBattery (l1 ++ s :: l2) = firstInternalBattery (l1 ++ l2).
Proof.
  intros Hs. induction l1 as [|x l1 IH]; simpl; [by rewrite Hs|].
  by rewrite IH.
Qed.

Lemma forallb_skip {A} (f : A → bool) l1 x l2 :
  forallb f (l1 ++ x :: l2) = true → forallb f (l1 ++ l2) = true.
Proof.
  rewrite !forallb_app. simpl. rewrite !andb_true_iff. tauto.
Qed.

Lemma readRegistry_frame P i :
  wellTyped P = true →
  ∃ i' t, readRegistry P i = Returns i' t ∧ samePowerSourceFields i' i ∧
          (registryProperties P = None → i' = i).
Proof.
  intros Hty. eexists _, _. split; [by apply readRegistry_spec|].
  destruct (registryProperties P); simpl; by split.
Qed.

(** ** Flags *)

Lemma flag_cases (b : bool) :
  (if b then 1 else 0) = 0 ∨ (if b then 1 else 0) = 1.
Proof. destruct b; auto. Qed.

Lemma flag_one (b : bool) : (if b then 1 else 0) = 1 ↔ b = true.
Proof. by destruct b. Qed.

Lemma registryCalls_reached P : registryReached (registryCalls P).
Proof.
  unfold registryReached, registryCalls.
  destruct (registryService P) as [[[d|]]|];
    [left|left|right]; present_in_trace.
Qed.

(** * The properties of the specification *)

(** C1.  On a platform that honours the documented types of the keys,
    [getBatteryInfo] returns: the run ends with a structure of which every
    member holds an [int].  A missing directory or list leaves the whole
    structure zero; a missing battery entry or description leaves the five
    power-source members zero; a missing key leaves its member zero; a
    missing registry entry or property dictionary leaves the five registry
    members zero; a missing registry key leaves its member zero. *)
Theorem getBatteryInfo_never_fails (P : Platform) :
  wellTyped P = true →
  ∃ info tr,
    getBatteryInfo P = Returns info tr ∧
    populated info ∧
    (powerSourcesInfo P = None → info = zeroInfo) ∧
    (enumerated P = None → info = zeroInfo) ∧
    (matchedEntry P = None → powerSourceFieldsZero info) ∧
    (∀ d, matchedEntry P = Some d →
       (d !! kIOPSCurrentCapacityKey = None → currentCapacity info = 0) ∧
       (d !! kIOPSIsChargingKey = None → isCharging info = 0) ∧
       (d !! kIOPSPowerSourceStateKey = None → isPlugged info = 0) ∧
       (d !! kIOPSTimeToEmptyKey = None → timeToEmpty info = 0) ∧
       (d !! kIOPSTimeToFullChargeKey = None → timeToFull info = 0)) ∧
    (registryService P = None → registryFieldsZero info) ∧
    (registryProperties P = None → registryFieldsZero info) ∧
    (∀ d, registryProperties P = Some d →
       (d !! "AppleRawMaxCapacity" = None → maxCapacity info = 0) ∧
       (d !! "DesignCapacity" = None → designCapacity info = 0) ∧
       (d !! "CycleCount" = None → cycleCount info = 0) ∧
       (d !! "Voltage" = None → voltage info = 0) ∧
       (d !! "Amperage" = None → amperage info = 0)).
Proof.
  intros Hty. exists (snapshot P), (calls P).
  split; [by apply getBatteryInfo_spec|].
  split; [apply snapshot_populated|].
  assert (Hnone : enumerated P = None → snapshot P = zeroInfo).
  { unfold snapshot. by intros ->. }
  split. { intros H. apply Hnone. unfold enumerated. by rewrite H. }
  split; [done|].
  split.
  { intros Hm.
    destruct (snapshot_powerSource_fields P) as [(Hz&_)|[(Hz&_)|(d&Hd&_)]];
      [by rewrite Hz|done|congruence]. }
  split.
  { intros d Hm.
    destruct (snapshot_powerSource_fields P)
      as [(_&Hn&_)|[(_&Hn&_)|(d'&Hd&Hcap&Hchg&Hplug&Hte&Htf)]]; [congruence..|].
    assert (d' = d) as -> by congruence.
    rewrite Hcap, Hchg, Hplug, Hte, Htf.
    split_and!; intros Habs; rewrite ?numberAt_absent by done; by rewrite ?Habs. }
  assert (Hreg : registryProperties P = None → registryFieldsZero (snapshot P)).
  { intros Hn.
    destruct (snapshot_registry_fields P) as [[Hz _]|(d&Hd&_)]; [done|congruence]. }
  split. { intros H. apply Hreg. unfold registryProperties. by rewrite H. }
  split; [done|].
  intros d Hd.
  destruct (snapshot_registry_fields P)
    as [[Hz [He|Hn]]|(d'&Hd'&_&Hmax&Hdes&Hcyc&Hvolt&Hamp)].
  - by destruct Hz as (?&?&?&?&?).
  - congruence.
  - assert (d' = d) as -> by congruence.
    rewrite Hmax, Hdes, Hcyc, Hvolt, Hamp.
    split_and!; intros Habs; by rewrite numberAt_absent.
Qed.

Lemma getBatteryInfo_never_fails_witness :
  wellTyped laptopNoProperties = true ∧
  ∃ info tr, getBatteryInfo laptopNoProperties = Returns info tr ∧
             populated info ∧ registryFieldsZero info.
Proof.
  assert (Hty : wellTyped laptopNoProperties = true) by (vm_compute; reflexivity).
  split; [exact Hty|].
  destruct (getBatteryInfo_never_fails laptopNoProperties Hty)
    as (info & tr & Hrun & Hpop & _ & _ & _ & _ & _ & Hreg & _).
  exists info, tr. split; [exact Hrun|]. split; [exact Hpop|].
  apply Hreg. reflexivity.
Defined.

(** C2.  On every run that returns, the trace of platform calls passes the
    ownership audit: no object is handed over while already owned, every
    release is of an object owned at that point, and nothing is owned at
    the return.  Counted per object: the directory, the list, the registry
    entry and the property dictionary are each released as many times as
    they were acquired, and at most once. *)
Theorem getBatteryInfo_releases_once (P : Platform) :
  wellTyped P = true →
  ∃ info tr,
    getBatteryInfo P = Returns info tr ∧
    audit [] tr = Some [] ∧
    ∀ h, acquisitions h tr = releases h tr ∧ (releases h tr ≤ 1)%nat.
Proof.
  intros Hty. exists (snapshot P), (calls P).
  split; [by apply getBatteryInfo_spec|]. apply calls_balanced.
Qed.

Lemma getBatteryInfo_releases_once_witness :
  wellTyped crowded = true ∧
  ∃ info tr, getBatteryInfo crowded = Returns info tr ∧
             audit [] tr = Some [] ∧
             acquisitions Hproperties tr = 1%nat ∧ releases Hproperties tr = 1%nat.
Proof.
  assert (Hty : wellTyped crowded = true) by (vm_compute; reflexivity).
  split; [exact Hty|].
  destruct (getBatteryInfo_releases_once crowded Hty) as (info & tr & Hrun & Haud & Hcnt).
  exists info, tr. split; [exact Hrun|]. split; [exact Haud|].
  destruct (Hcnt Hproperties) as [Heq _].
  assert (Hone : acquisitions Hproperties tr = 1%nat).
  { assert (E : getBatteryInfo crowded =
                Returns (snapshot crowded) (calls crowded))
      by (vm_compute; reflexivity).
    rewrite E in Hrun. injection Hrun as _ <-. vm_compute. reflexivity. }
  split; [exact Hone|]. rewrite <- Heq. exact Hone.
Defined.

(** C3.  When the directory or the list is unavailable the run returns the
    all-zero structure and never enters the registry part.  A missing
    directory ends the run at once, nothing else being called; a missing
    list ends it after the release of the directory. *)
Theorem enumeration_failure_returns_zero (P : Platform) :
  enumerated P = None →
  ∃ tr,
    getBatteryInfo P = Returns zeroInfo tr ∧
    ¬ registryReached tr ∧
    (powerSourcesInfo P = None → tr = [EvFail HpowerInfo]) ∧
    (is_Some (powerSourcesInfo P) →
     tr = [EvAcquire HpowerInfo; EvFail HpowerSources; EvRelease HpowerInfo]).
Proof.
  unfold enumerated, getBatteryInfo, IOPSCopyPowerSourcesInfo, IOPSCopyPowerSourcesList.
  destruct P as [[[[l|]]|] reg]; simpl; [done|..]; intros _.
  - eexists. split; [done|]. split.
    + intros [H|H]; absent_from_trace H.
    + split; [done|]. done.
  - eexists. split; [done|]. split.
    + intros [H|H]; absent_from_trace H.
    + split; [done|]. by intros [].
Qed.

Lemma enumeration_failure_returns_zero_witness :
  enumerated noList = None ∧
  getBatteryInfo noList =
    Returns zeroInfo [EvAcquire HpowerInfo; EvFail HpowerSources; EvRelease HpowerInfo] ∧
  enumerated noDirectory = None ∧
  getBatteryInfo noDirectory = Returns zeroInfo [EvFail HpowerInfo].
Proof.
  split; [reflexivity|]. split.
  - destruct (enumeration_failure_returns_zero noList eq_refl) as (tr & Hrun & _ & _ & Htr).
    rewrite (Htr (ex_intro _ _ eq_refl)) in Hrun. exact Hrun.
  - split; [reflexivity|].
    destruct (enumeration_failure_returns_zero noDirectory eq_refl) as (tr & Hrun & _ & Htr & _).
    rewrite (Htr eq_refl) in Hrun. exact Hrun.
Defined.

(** When the list is available the registry part is entered. *)
Lemma registry_reached_otherwise (P : Platform) :
  wellTyped P = true → is_Some (enumerated P) →
  ∃ info tr, getBatteryInfo P = Returns info tr ∧ registryReached tr.
Proof.
  intros Hty He. exists (snapshot P), (calls P).
  split; [by apply getBatteryInfo_spec|].
  assert (Hreg := registryCalls_reached P).
  unfold registryReached, calls, enumerated in *.
  destruct (powerSourcesInfo P) as [[[l|]]|]; simpl in *; try by destruct He.
  destruct Hreg as [H|H]; [left|right];
    do 2 apply list_elem_of_further; apply elem_of_app; right;
    do 2 apply list_elem_of_further; exact H.
Qed.

(** C4.  The scan asks for the descriptions in listed order, index 0
    first.  With no internal battery in the list every entry is asked and
    the five power-source members stay zero.  Otherwise, whatever way the
    list is split around its first internal battery, the members are read
    from that entry's description, the entries asked are those up to and
    including it, no later entry is looked at, and replacing the later
    entries by any others, of whatever content, gives the same structure
    and the same calls. *)
Theorem scan_selects_first_internal_battery
    (l : list PowerSource) (reg : option RegistryEntry) :
  wellTyped (listing l reg) = true →
  ∃ info tr,
    getBatteryInfo (listing l reg) = Returns info tr ∧
    (notInternal l →
       powerSourceFieldsZero info ∧ describes tr = seq 0 (length l)) ∧
    (∀ pre m post,
       l = pre ++ m :: post → notInternal pre → isInternalBattery m = true →
       ∃ d, psDescription m = Some d ∧
            powerSourceFieldsFrom d info ∧
            describes tr = seq 0 (S (length pre)) ∧
            (∀ j, (length pre < j)%nat → EvDescribe j ∉ tr) ∧
            (∀ post',
               getBatteryInfo (listing (pre ++ m :: post') reg) = Returns info tr)).
Proof.
  intros Hty. exists (snapshot (listing l reg)), (calls (listing l reg)).
  split; [by apply getBatteryInfo_spec|]. split.
  - intros [Hf He]%firstInternalBattery_none. split.
    + by apply listing_not_found.
    + by rewrite describes_calls, He.
  - intros pre m post -> Hpre Hm.
    destruct (isInternalBattery_description m Hm) as (d & Hd & _).
    destruct (firstInternalBattery_app pre m post Hpre Hm) as [Hf He].
    exists d. split; [done|]. split; [apply listing_found; congruence|].
    split; [by rewrite describes_calls, He|]. split.
    + intros j Hj. rewrite elem_of_describes, describes_calls, He.
      rewrite elem_of_seq. lia.
    + intros post'.
      destruct (firstInternalBattery_app pre m post' Hpre Hm) as [Hf' He'].
      destruct (listing_run_eq (pre ++ m :: post) (pre ++ m :: post') reg)
        as [-> ->]; [congruence..|].
      apply getBatteryInfo_spec.
      apply wellTyped_listing in Hty as [Hl Hr]. apply wellTyped_listing.
      split; [|done]. rewrite examined_app in Hl |- * by done. done.
Qed.

Lemma scan_selects_first_internal_battery_witness :
  wellTyped crowded = true ∧
  ∃ tr, getBatteryInfo crowded =
          Returns (mkBatteryInfo 87 4382 4790 312 12450 (-1520) 1 1 0 45) tr ∧
        describes tr = [0; 1; 2]%nat.
Proof.
  assert (Hty : wellTyped crowded = true) by (vm_compute; reflexivity).
  split; [exact Hty|].
  destruct (scan_selects_first_internal_battery _ _ Hty)
    as (info & tr & Hrun & _ & Hsplit).
  destruct (Hsplit [mkPowerSource (Some ups); mkPowerSource None]
              (mkPowerSource (Some (battery 87 true "AC Power" 0 45)))
              [mkPowerSource (Some (battery 12 false "Battery Power" 30 0))])
    as (d & _ & _ & Hasked & _).
  - reflexivity.
  - repeat constructor.
  - vm_compute. reflexivity.
  - exists tr. split; [|exact Hasked].
    assert (E : getBatteryInfo crowded =
                Returns (mkBatteryInfo 87 4382 4790 312 12450 (-1520) 1 1 0 45)
                        (calls crowded)) by (vm_compute; reflexivity).
    unfold crowded in E. rewrite E in Hrun. injection Hrun as <- <-. exact E.
Defined.

(** C10.  A listed source without description is asked for its description
    and passed over.  When such a source stands before the first internal
    battery, with or without other non-battery sources around it, the
    scan goes on through the following entries, reaches the battery and
    reads the five power-source members from it; the structure returned is
    the one returned when the description-less source is not listed. *)
Theorem scan_skips_sources_without_description
    (pre mid post : list PowerSource) (m : PowerSource)
    (reg : option RegistryEntry) :
  wellTyped (listing (pre ++ mkPowerSource None :: mid ++ m :: post) reg) = true →
  notInternal pre → notInternal mid → isInternalBattery m = true →
  ∃ d info tr,
    psDescription m = Some d ∧
    getBatteryInfo (listing (pre ++ mkPowerSource None :: mid ++ m :: post) reg)
      = Returns info tr ∧
    powerSourceFieldsFrom d info ∧
    describes tr = seq 0 (length pre + 1 + length mid + 1) ∧
    ∃ tr', getBatteryInfo (listing (pre ++ mid ++ m :: post) reg) = Returns info tr'.
Proof.
  intros Hty Hpre Hmid Hm.
  destruct (isInternalBattery_description m Hm) as (d & Hd & _).
  assert (Hbefore : notInternal (pre ++ mkPowerSource None :: mid)).
  { apply notInternal_app. split; [done|]. by constructor. }
  destruct (firstInternalBattery_app _ m post Hbefore Hm) as [Hf He].
  rewrite <- app_assoc in Hf, He. simpl in Hf, He.
  exists d, (snapshot (listing (pre ++ mkPowerSource None :: mid ++ m :: post) reg)),
    (calls (listing (pre ++ mkPowerSource None :: mid ++ m :: post) reg)).
  split; [done|]. split; [by apply getBatteryInfo_spec|].
  split; [apply listing_found; congruence|]. split.
  - rewrite describes_calls, He, length_app. f_equal. simpl. lia.
  - exists (calls (listing (pre ++ mid ++ m :: post) reg)).
    rewrite getBatteryInfo_spec.
    + f_equal. unfold snapshot. simpl.
      by rewrite (firstInternalBattery_skip pre (mkPowerSource None)).
    + apply wellTyped_listing in Hty as [Hl Hr]. apply wellTyped_listing.
      split; [|done].
      change (pre ++ mkPowerSource None :: mid ++ m :: post)
        with (pre ++ (mkPowerSource None :: mid) ++ m :: post) in Hl.
      rewrite app_assoc, examined_app, <- app_assoc in Hl by done.
      rewrite app_assoc, examined_app, <- app_assoc;
        [|by apply notInternal_app|done].
      by apply forallb_skip in Hl.
Qed.

Lemma scan_skips_sources_without_description_witness :
  wellTyped crowded = true ∧
  ∃ info tr tr',
    getBatteryInfo crowded = Returns info tr ∧
    currentCapacity info = 87 ∧ describes tr = [0; 1; 2]%nat ∧
    getBatteryInfo
      (listing [mkPowerSource (Some ups);
                mkPowerSource (Some (battery 87 true "AC Power" 0 45));
                mkPowerSource (Some (battery 12 false "Battery Power" 30 0))]
         withSmartBattery) = Returns info tr'.
Proof.
  assert (Hty : wellTyped crowded = true) by (vm_compute; reflexivity).
  split; [exact Hty|].
  destruct (scan_skips_sources_without_description
              [mkPowerSource (Some ups)] [] 
              [mkPowerSource (Some (battery 12 false "Battery Power" 30 0))]
              (mkPowerSource (Some (battery 87 true "AC Power" 0 45)))
              withSmartBattery Hty)
    as (d & info & tr & Hd & Hrun & Hfrom & Hasked & tr' & Hrun').
  - repeat constructor.
  - constructor.
  - vm_compute. reflexivity.
  - exists info, tr, tr'. split; [exact Hrun|]. split; [|split; [exact Hasked|exact Hrun']].
    destruct Hfrom as [-> _]. injection Hd as <-. vm_compute. reflexivity.
Defined.

(** C5, as the code has it.  With no internal battery among the listed
    sources the five power-source members are zero.  The registry part runs
    all the same: the five registry members hold what the property
    dictionary gives, and the whole structure is zero when the registry
    gives no dictionary. *)
Theorem no_internal_battery_zero_power_source_fields
    (P : Platform) (l : list PowerSource) :
  wellTyped P = true →
  enumerated P = Some l →
  notInternal l →
  ∃ info tr,
    getBatteryInfo P = Returns info tr ∧
    powerSourceFieldsZero info ∧
    (registryProperties P = None → info = zeroInfo) ∧
    (∀ d, registryProperties P = Some d →
       maxCapacity info = numberAt d "AppleRawMaxCapacity" 0 ∧
       designCapacity info = numberAt d "DesignCapacity" 0 ∧
       cycleCount info = numberAt d "CycleCount" 0 ∧
       voltage info = numberAt d "Voltage" 0 ∧
       amperage info = numberAt d "Amperage" 0).
Proof.
  intros Hty He [Hf _]%firstInternalBattery_none.
  exists (snapshot P), (calls P).
  split; [by apply getBatteryInfo_spec|].
  unfold snapshot. rewrite He, Hf. simpl.
  destruct (registryProperties P) as [d|]; simpl.
  - split; [done|]. split; [done|]. by intros ? [= <-].
  - split; [done|]. split; [done|]. done.
Qed.

Lemma no_internal_battery_zero_power_source_fields_witness :
  wellTyped upsOnly = true ∧
  ∃ info tr, getBatteryInfo upsOnly = Returns info tr ∧
             powerSourceFieldsZero info ∧ designCapacity info = 4790.
Proof.
  assert (Hty : wellTyped upsOnly = true) by (vm_compute; reflexivity).
  split; [exact Hty|].
  destruct (no_internal_battery_zero_power_source_fields upsOnly
              [mkPowerSource (Some ups)] Hty eq_refl)
    as (info & tr & Hrun & Hz & _ & Hreg).
  - repeat constructor.
  - exists info, tr. split; [exact Hrun|]. split; [exact Hz|].
    destruct (Hreg smartBattery eq_refl) as (_ & -> & _). vm_compute. reflexivity.
Defined.

(** C5, as stated, fails: the list holds a UPS only, no internal battery,
    and the structure returned carries the registry's capacities, cycle
    count, voltage and amperage. *)
Lemma no_internal_battery_not_all_zero :
  wellTyped upsOnly = true ∧
  enumerated upsOnly = Some [mkPowerSource (Some ups)] ∧
  notInternal [mkPowerSource (Some ups)] ∧
  getBatteryInfo upsOnly =
    Returns (mkBatteryInfo 0 4382 4790 312 12450 (-1520) 0 0 0 0)
      [EvAcquire HpowerInfo; EvAcquire HpowerSources; EvDescribe 0;
       EvRelease HpowerSources; EvRelease HpowerInfo;
       EvAcquire HregistryEntry; EvAcquire Hproperties;
       EvRelease Hproperties; EvRelease HregistryEntry] ∧
  mkBatteryInfo 0 4382 4790 312 12450 (-1520) 0 0 0 0 ≠ zeroInfo.
Proof.
  split; [vm_compute; reflexivity|]. split; [reflexivity|].
  split; [repeat constructor|]. split; [vm_compute; reflexivity|].
  discriminate.
Qed.

(** C6.  When the registry gives no property dictionary, because no
    service matches or because the properties cannot be read, the five
    registry members are zero and the structure returned is the one the
    scan of the power sources produced: the registry part, run on any
    structure, returns it as it was. *)
Theorem registry_failure_keeps_power_source_fields (P : Platform) :
  wellTyped P = true →
  registryProperties P = None →
  ∃ info tr,
    getBatteryInfo P = Returns info tr ∧
    registryFieldsZero info ∧
    (∀ l, enumerated P = Some l →
          ∃ tr1, scanPowerSources 0 l zeroInfo = Returns info tr1) ∧
    (enumerated P = None → info = zeroInfo) ∧
    (∀ d, matchedEntry P = Some d → powerSourceFieldsFrom d info) ∧
    (∀ i, ∃ t, readRegistry P i = Returns i t).
Proof.
  intros Hty Hreg. exists (snapshot P), (calls P).
  split; [by apply getBatteryInfo_spec|]. split.
  { destruct (snapshot_registry_fields P) as [[Hz _]|(d & Hd & _)];
      [done|congruence]. }
  split.
  { intros l He. eexists. rewrite scanPowerSources_spec.
    - f_equal. unfold snapshot. by rewrite He, Hreg.
    - unfold wellTyped in Hty. rewrite He in Hty.
      by apply andb_true_iff in Hty as [? _]. }
  split; [unfold snapshot; by intros ->|]. split.
  { intros d Hd.
    destruct (snapshot_powerSource_fields P)
      as [(_&Hn&_)|[(_&Hn&_)|(d'&Hd'&Hfrom)]]; congruence. }
  intros i. destruct (readRegistry_frame P i Hty) as (i' & t & Hrun & _ & Hsame).
  exists t. by rewrite <- (Hsame Hreg) at 2.
Qed.

Lemma registry_failure_keeps_power_source_fields_witness :
  wellTyped laptopNoRegistry = true ∧
  registryProperties laptopNoRegistry = None ∧
  ∃ tr, getBatteryInfo laptopNoRegistry =
          Returns (mkBatteryInfo 52 0 0 0 0 0 0 0 175 0) tr.
Proof.
  assert (Hty : wellTyped laptopNoRegistry = true) by (vm_compute; reflexivity).
  split; [exact Hty|]. split; [reflexivity|].
  destruct (registry_failure_keeps_power_source_fields laptopNoRegistry Hty eq_refl)
    as (info & tr & Hrun & _ & Hscan & _).
  destruct (Hscan _ eq_refl) as (tr1 & Hscan1).
  exists tr. rewrite Hrun. f_equal.
  assert (E : scanPowerSources 0
                [mkPowerSource (Some (battery 52 false "Battery Power" 175 0))]
                zeroInfo =
              Returns (mkBatteryInfo 52 0 0 0 0 0 0 0 175 0) [EvDescribe 0%nat])
    by (vm_compute; reflexivity).
  rewrite E in Hscan1. by injection Hscan1 as <- _.
Defined.

(** C7, as the code has it.  [currentCapacity] is 0 when no listed source
    is an internal battery.  When one is, it is the number found under the
    current-capacity key of the first such entry, stored as it is when it
    fits an [int], or 0 when that key is absent.  The code sets no bound of
    its own: the member lies in [0,100] when the reported number does, and
    a reported number outside [0,100] that fits an [int] is returned as
    reported. *)
Theorem currentCapacity_is_reported_value (P : Platform) :
  wellTyped P = true →
  ∃ info tr,
    getBatteryInfo P = Returns info tr ∧
    (¬ internalBatteryPresent P → currentCapacity info = 0) ∧
    (internalBatteryPresent P →
     ∃ d, matchedEntry P = Some d ∧
          (d !! kIOPSCurrentCapacityKey = None → currentCapacity info = 0) ∧
          (∀ n, d !! kIOPSCurrentCapacityKey = Some (CFNumber n) →
                (isInt n → currentCapacity info = n) ∧
                (0 ≤ n ≤ 100 → 0 ≤ currentCapacity info ≤ 100))).
Proof.
  intros Hty. exists (snapshot P), (calls P).
  split; [by apply getBatteryInfo_spec|].
  rewrite matchedEntry_present.
  destruct (snapshot_powerSource_fields P)
    as [(Hz&Hn&_)|[((Hz&_)&Hn&_)|(d&Hd&Hcap&_)]].
  - rewrite Hz, Hn. split; [done|]. by intros [].
  - rewrite Hz, Hn. split; [done|]. by intros [].
  - rewrite Hd, Hcap. split; [by intros []|]. intros _. exists d.
    split; [done|]. split; [apply numberAt_absent|].
    intros n Hn. rewrite (numberAt_present _ _ _ _ Hn). split.
    + apply toInt_id.
    + intros Hpercent. rewrite toInt_id; [done|].
      unfold isInt, INT_MIN, INT_MAX. lia.
Qed.

Lemma currentCapacity_is_reported_value_witness :
  wellTyped laptopCharging = true ∧
  ∃ info tr, getBatteryInfo laptopCharging = Returns info tr ∧
             currentCapacity info = 87.
Proof.
  assert (Hty : wellTyped laptopCharging = true) by (vm_compute; reflexivity).
  split; [exact Hty|].
  destruct (currentCapacity_is_reported_value laptopCharging Hty)
    as (info & tr & Hrun & _ & Hpresent).
  exists info, tr. split; [exact Hrun|].
  destruct Hpresent as (d & Hd & _ & Hn).
  - exists [mkPowerSource (Some (battery 87 true "AC Power" 0 45))],
      (mkPowerSource (Some (battery 87 true "AC Power" 0 45))).
    split; [reflexivity|]. split; [apply list_elem_of_here|].
    vm_compute. reflexivity.
  - injection Hd as <-.
    destruct (Hn 87) as (Hsame & _); [vm_compute; reflexivity|].
    apply Hsame. unfold isInt, INT_MIN, INT_MAX. lia.
Defined.

(** C7, as stated, fails: an internal battery is listed, it reports its
    capacity as 4382 against a maximum in the same unit, and the member
    returned is 4382. *)
Lemma currentCapacity_above_100 :
  wellTyped laptopRawCapacity = true ∧
  internalBatteryPresent laptopRawCapacity ∧
  getBatteryInfo laptopRawCapacity =
    Returns (mkBatteryInfo 4382 4382 4790 312 12450 (-1520) 0 0 175 0)
      [EvAcquire HpowerInfo; EvAcquire HpowerSources; EvDescribe 0;
       EvRelease HpowerSources; EvRelease HpowerInfo;
       EvAcquire HregistryEntry; EvAcquire Hproperties;
       EvRelease Hproperties; EvRelease HregistryEntry] ∧
  ¬ (0 ≤ currentCapacity (mkBatteryInfo 4382 4382 4790 312 12450 (-1520) 0 0 175 0)
     ≤ 100).
Proof.
  split; [vm_compute; reflexivity|]. split.
  { exists [mkPowerSource (Some (battery 4382 false "Battery Power" 175 0))],
      (mkPowerSource (Some (battery 4382 false "Battery Power" 175 0))).
    split; [reflexivity|]. split; [apply list_elem_of_here|].
    vm_compute. reflexivity. }
  split; [vm_compute; reflexivity|]. simpl. lia.
Qed.

(** C8.  On every run [isCharging] and [isPlugged] are 0 or 1.
    [isCharging] is 1 exactly when an internal battery is matched and the
    value under its charging key is the true boolean; [isPlugged] is 1
    exactly when an internal battery is matched and the value under its
    power-source-state key is the AC-power string.  Neither depends on the
    other: each of the four combinations is returned on some platform, in
    particular plugged and not charging. *)
Theorem charging_and_plugged_flags :
  (∀ P, wellTyped P = true →
     ∃ info tr,
       getBatteryInfo P = Returns info tr ∧
       (isCharging info = 0 ∨ isCharging info = 1) ∧
       (isPlugged info = 0 ∨ isPlugged info = 1) ∧
       (isCharging info = 1 ↔
        ∃ d, matchedEntry P = Some d ∧
             d !! kIOPSIsChargingKey = Some (CFBoolean true)) ∧
       (isPlugged info = 1 ↔
        ∃ d, matchedEntry P = Some d ∧
             d !! kIOPSPowerSourceStateKey = Some (CFString kIOPSACPowerValue))) ∧
  (∀ c p : bool,
     ∃ P info tr,
       wellTyped P = true ∧ getBatteryInfo P = Returns info tr ∧
       isCharging info = Z.b2z c ∧ isPlugged info = Z.b2z p) ∧
  (∃ P info tr,
     wellTyped P = true ∧ getBatteryInfo P = Returns info tr ∧
     isPlugged info = 1 ∧ isCharging info = 0).
Proof.
  split; [|split].
  - intros P Hty. exists (snapshot P), (calls P).
    split; [by apply getBatteryInfo_spec|].
    destruct (snapshot_powerSource_fields P)
      as [(Hz&Hn&_)|[((_&Hc&Hp&_)&Hn&_)|(d&Hd&_&Hc&Hp&_)]].
    + rewrite Hz, Hn. simpl. split_and!; [by left|by left|..];
        (split; [done|by intros (? & ? & _)]).
    + rewrite Hc, Hp, Hn. split_and!; [by left|by left|..];
        (split; [done|by intros (? & ? & _)]).
    + rewrite Hc, Hp, Hd. split_and!; [apply flag_cases|apply flag_cases|..];
        rewrite flag_one, bool_decide_eq_true;
        (split; [by eauto|by intros (d' & [= <-] & ?)]).
  - intros c p.
    exists (listing [mkPowerSource (Some
              (battery 50 c (if p then "AC Power" else "Battery Power") 0 0))] None).
    destruct c, p;
      (eexists _, _; split; [vm_compute; reflexivity|];
       split; [vm_compute; reflexivity|]; split; reflexivity).
  - exists laptopFull. eexists _, _. split; [vm_compute; reflexivity|].
    split; [vm_compute; reflexivity|]. split; reflexivity.
Qed.

Lemma charging_and_plugged_flags_witness :
  wellTyped laptopFull = true ∧
  ∃ info tr, getBatteryInfo laptopFull = Returns info tr ∧
             isPlugged info = 1 ∧ isCharging info ≠ 1.
Proof.
  assert (Hty : wellTyped laptopFull = true) by (vm_compute; reflexivity).
  split; [exact Hty|].
  destruct (proj1 charging_and_plugged_flags laptopFull Hty)
    as (info & tr & Hrun & _ & _ & Hc & Hp).
  exists info, tr. split; [exact Hrun|]. split.
  - apply Hp. eexists. split; [reflexivity|]. vm_compute. reflexivity.
  - intros (d & [= <-] & Hd)%Hc. vm_compute in Hd. discriminate Hd.
Defined.

Lemma reportsNoEstimate_zero d key :
  reportsNoEstimate d key = true → numberAt d key 0 = 0.
Proof.
  unfold reportsNoEstimate, numberAt.
  by destruct (d !! key) as [[?|[| |]|?]|].
Qed.

(** C9.  Under normal operation, the matched battery reporting no time to
    empty while it charges and no time to full charge while it does not,
    [timeToEmpty] and [timeToFull] are never both non-zero in the
    structure returned: a non-zero [timeToEmpty] comes with [isCharging]
    0 and a non-zero [timeToFull] with [isCharging] 1.  The code stores
    each estimate in its own member, from the same description as the
    charging flag, and nothing after the scan writes them. *)
Theorem time_estimates_exclude_each_other (P : Platform) :
  wellTyped P = true →
  normalOperation P = true →
  ∃ info tr,
    getBatteryInfo P = Returns info tr ∧
    ¬ (timeToEmpty info ≠ 0 ∧ timeToFull info ≠ 0) ∧
    (timeToEmpty info ≠ 0 → isCharging info = 0) ∧
    (timeToFull info ≠ 0 → isCharging info = 1).
Proof.
  intros Hty Hnormal. exists (snapshot P), (calls P).
  split; [by apply getBatteryInfo_spec|].
  unfold normalOperation in Hnormal.
  destruct (snapshot_powerSource_fields P)
    as [(Hz&_)|[((_&_&_&He&Hf)&_)|(d&Hd&_&Hc&_&He&Hf)]].
  - rewrite Hz. simpl. split; [by intros []|]. done.
  - rewrite He, Hf. split; [by intros []|]. done.
  - rewrite Hd in Hnormal. unfold followsChargeDirection in Hnormal.
    rewrite He, Hf, Hc.
    destruct (bool_decide (d !! kIOPSIsChargingKey = Some (CFBoolean true)));
      apply reportsNoEstimate_zero in Hnormal; rewrite Hnormal;
      (split; [by intros []|]); done.
Qed.

Lemma time_estimates_exclude_each_other_witness :
  wellTyped laptopCharging = true ∧
  normalOperation laptopCharging = true ∧
  ∃ info tr, getBatteryInfo laptopCharging = Returns info tr ∧
             timeToFull info = 45 ∧ timeToEmpty info = 0 ∧ isCharging info = 1.
Proof.
  assert (Hty : wellTyped laptopCharging = true) by (vm_compute; reflexivity).
  assert (Hnormal : normalOperation laptopCharging = true)
    by (vm_compute; reflexivity).
  split; [exact Hty|]. split; [exact Hnormal|].
  destruct (time_estimates_exclude_each_other laptopCharging Hty Hnormal)
    as (info & tr & Hrun & Hnot & _ & Hfull).
  exists info, tr. split; [exact Hrun|].
  assert (E : getBatteryInfo laptopCharging =
              Returns (mkBatteryInfo 87 4382 4790 312 12450 (-1520) 1 1 0 45)
                      (calls laptopCharging)) by (vm_compute; reflexivity).
  assert (Hfull45 : timeToFull info = 45).
  { rewrite E in Hrun. by injection Hrun as <- _. }
  split; [exact Hfull45|]. split.
  - destruct (decide (timeToEmpty info = 0)) as [Hz|Hnz]; [exact Hz|].
    exfalso. apply Hnot. split; [exact Hnz|]. rewrite Hfull45. discriminate.
  - apply Hfull. rewrite Hfull45. discriminate.
Defined.

(** The exclusion is the platform's, carried over: the code compares the
    two estimates neither with each other nor with the charging flag.
    Outside normal operation, a charging battery that also reports a time
    to empty, both are stored as reported. *)
Example estimates_outside_normal_operation :
  normalOperation laptopBothEstimates = false ∧
  ∃ tr, getBatteryInfo laptopBothEstimates =
          Returns (mkBatteryInfo 60 4382 4790 312 12450 (-1520) 1 1 120 45) tr.
Proof. split; [vm_compute; reflexivity|]. eexists. vm_compute. reflexivity. Qed.

(** * Further properties of the code *)

(** ** The registry part *)

(** X1.  When the list of power sources is available and the registry
    gives a property dictionary, each registry member is read from its own
    key, whatever the listed sources hold: [maxCapacity] from
    ["AppleRawMaxCapacity"], [designCapacity] from ["DesignCapacity"],
    [cycleCount] from ["CycleCount"], [voltage] from ["Voltage"],
    [amperage] from ["Amperage"].  A key that is absent leaves its member
    0 and does not keep the others from being read; a number in the range
    of [int] is stored as it is, sign included. *)
Theorem registry_members_from_properties
    (P : Platform) (l : list PowerSource) (d : CFDictionary) :
  wellTyped P = true →
  enumerated P = Some l →
  registryProperties P = Some d →
  ∃ info tr,
    getBatteryInfo P = Returns info tr ∧
    ∀ k member, (k, member) ∈ registryMembers →
      member info = numberAt d k 0 ∧
      (d !! k = None → member info = 0) ∧
      (∀ n, d !! k = Some (CFNumber n) → isInt n → member info = n).
Proof.
  intros Hty He Hd. exists (snapshot P), (calls P).
  split; [by apply getBatteryInfo_spec|].
  destruct (snapshot_registry_fields P)
    as [[_ [Hn|Hn]]|(d' & Hd' & _ & Hmax & Hdes & Hcyc & Hvolt & Hamp)];
    [congruence..|].
  assert (d' = d) as -> by congruence.
  intros k member Hin.
  assert (Hk : member (snapshot P) = numberAt d k 0).
  { unfold registryMembers in Hin.
    repeat (apply elem_of_cons in Hin as [[= -> ->]|Hin]; [done|]).
    by apply elem_of_nil in Hin. }
  rewrite Hk. split; [done|]. split; [apply numberAt_absent|].
  intros n Hn Hint. by rewrite (numberAt_present _ _ _ _ Hn), toInt_id.
Qed.

Lemma registry_members_from_properties_witness :
  wellTyped upsOnly = true ∧
  ∃ info tr, getBatteryInfo upsOnly = Returns info tr ∧
             amperage info = -1520 ∧ cycleCount info = 312.
Proof.
  assert (Hty : wellTyped upsOnly = true) by (vm_compute; reflexivity).
  split; [exact Hty|].
  destruct (registry_members_from_properties upsOnly _ smartBattery Hty eq_refl eq_refl)
    as (info & tr & Hrun & Hmem).
  exists info, tr. split; [exact Hrun|]. split.
  - destruct (Hmem "Amperage" amperage) as (_ & _ & Hn).
    + unfold registryMembers. do 4 apply list_elem_of_further. apply list_elem_of_here.
    + apply Hn; [vm_compute; reflexivity|]. unfold isInt, INT_MIN, INT_MAX. lia.
  - destruct (Hmem "CycleCount" cycleCount) as (_ & _ & Hn).
    + unfold registryMembers. do 2 apply list_elem_of_further. apply list_elem_of_here.
    + apply Hn; [vm_compute; reflexivity|]. unfold isInt, INT_MIN, INT_MAX. lia.
Defined.

(** ** Keys that are not read *)

Lemma agreeOn_insert keys (d : CFDictionary) k v :
  k ∉ keys → agreeOn keys (<[k:=v]> d) d.
Proof.
  intros Hk. apply Forall_forall. intros k' Hin.
  apply lookup_insert_ne. by intros ->.
Qed.

Lemma agreeOn_delete keys (d : CFDictionary) k :
  k ∉ keys → agreeOn keys (delete k d) d.
Proof.
  intros Hk. apply Forall_forall. intros k' Hin.
  apply lookup_delete_ne. by intros ->.
Qed.

Lemma readDescription_agree d d' info :
  agreeOn descriptionKeys d d' → readDescription d info = readDescription d' info.
Proof.
  unfold agreeOn, descriptionKeys. intros H.
  apply Forall_cons in H as [_ H]. apply Forall_cons in H as [Hcap H].
  apply Forall_cons in H as [Hchg H]. apply Forall_cons in H as [Hstate H].
  apply Forall_cons in H as [Hte H]. apply Forall_cons in H as [Htf _].
  unfold readDescription, CFDictionaryGetValue.
  by rewrite Hcap, Hchg, Hstate, Hte, Htf.
Qed.

Lemma scanPowerSources_agree pre d d' post :
  agreeOn descriptionKeys d d' → ∀ i info,
  scanPowerSources i (pre ++ mkPowerSource (Some d) :: post) info =
  scanPowerSources i (pre ++ mkPowerSource (Some d') :: post) info.
Proof.
  intros Hagree. assert (Htype : d !! kIOPSTypeKey = d' !! kIOPSTypeKey).
  { unfold agreeOn, descriptionKeys in Hagree. by apply Forall_cons in Hagree as [? _]. }
  induction pre as [|s pre IH]; intros i info; simpl;
    unfold IOPSGetPowerSourceDescription, CFDictionaryGetValue; simpl.
  - rewrite Htype. destruct (d' !! kIOPSTypeKey) as [[t|?|?]|]; try done.
    simpl. case_bool_decide; [|done]. by rewrite (readDescription_agree d d').
  - destruct (psDescription s) as [ds|]; simpl; [|by rewrite IH].
    destruct (ds !! kIOPSTypeKey) as [[t|?|?]|]; simpl; try done;
      [case_bool_decide|]; by rewrite ?IH.
Qed.

(** X2.  In the description of a listed source only six keys count: the
    type, the current capacity, the charging flag, the power-source state
    and the two estimates.  Two descriptions that answer alike on these
    six give the same run, structure and calls alike, wherever the source
    stands in the list; so adding, changing or removing any other key, the
    maximum capacity of the enumeration service among them, changes
    nothing. *)
Theorem unread_description_keys_are_ignored
    (pre post : list PowerSource) (d d' : CFDictionary)
    (reg : option RegistryEntry) :
  agreeOn descriptionKeys d d' →
  getBatteryInfo (listing (pre ++ mkPowerSource (Some d) :: post) reg) =
  getBatteryInfo (listing (pre ++ mkPowerSource (Some d') :: post) reg).
Proof.
  intros Hagree. unfold getBatteryInfo, listing, IOPSCopyPowerSourcesInfo,
    IOPSCopyPowerSourcesList. simpl.
  by rewrite (scanPowerSources_agree pre d d' post Hagree).
Qed.

Lemma unread_description_keys_are_ignored_witness :
  agreeOn descriptionKeys batteryWithMax (battery 87 true "AC Power" 0 45) ∧
  getBatteryInfo (listing [mkPowerSource (Some batteryWithMax)] withSmartBattery) =
  getBatteryInfo laptopCharging.
Proof.
  assert (H : agreeOn descriptionKeys batteryWithMax (battery 87 true "AC Power" 0 45)).
  { apply agreeOn_insert. unfold descriptionKeys.
    intros Hin. absent_from_trace Hin. }
  split; [exact H|].
  exact (unread_description_keys_are_ignored [] [] _ _ withSmartBattery H).
Defined.

Lemma readRegistry_agree psi d d' info :
  agreeOn registryKeys d d' →
  readRegistry (mkPlatform psi (Some (mkRegistryEntry (Some d)))) info =
  readRegistry (mkPlatform psi (Some (mkRegistryEntry (Some d')))) info.
Proof.
  unfold agreeOn, registryKeys. intros H.
  apply Forall_cons in H as [Hmax H]. apply Forall_cons in H as [Hdes H].
  apply Forall_cons in H as [Hcyc H]. apply Forall_cons in H as [Hvolt H].
  apply Forall_cons in H as [Hamp _].
  unfold readRegistry, IOServiceGetMatchingService,
    IORegistryEntryCreateCFProperties, CFDictionaryGetValue. simpl.
  by rewrite Hmax, Hdes, Hcyc, Hvolt, Hamp.
Qed.

(** X3.  In the registry properties only five keys count.  Two property
    dictionaries that answer alike on ["AppleRawMaxCapacity"],
    ["DesignCapacity"], ["CycleCount"], ["Voltage"] and ["Amperage"] give
    the same run, whatever the power-source service answers. *)
Theorem unread_registry_keys_are_ignored
    (psi : option PowerSourcesInfo) (d d' : CFDictionary) :
  agreeOn registryKeys d d' →
  getBatteryInfo (mkPlatform psi (Some (mkRegistryEntry (Some d)))) =
  getBatteryInfo (mkPlatform psi (Some (mkRegistryEntry (Some d')))).
Proof.
  intros Hagree. unfold getBatteryInfo, IOPSCopyPowerSourcesInfo,
    IOPSCopyPowerSourcesList.
  destruct psi as [[[l|]]|]; simpl; try done.
  destruct (scanPowerSources 0 l zeroInfo) as [info tr|]; simpl; [|done].
  by rewrite (readRegistry_agree _ d d' info Hagree).
Qed.

Lemma unread_registry_keys_are_ignored_witness :
  agreeOn registryKeys (<["Temperature" := CFNumber 3012]> smartBattery) smartBattery ∧
  getBatteryInfo
    (listing [mkPowerSource (Some (battery 87 true "AC Power" 0 45))]
       (Some (mkRegistryEntry (Some (<["Temperature" := CFNumber 3012]> smartBattery)))))
  = getBatteryInfo laptopCharging.
Proof.
  assert (H : agreeOn registryKeys
                (<["Temperature" := CFNumber 3012]> smartBattery) smartBattery).
  { apply agreeOn_insert. unfold registryKeys.
    intros Hin. absent_from_trace Hin. }
  split; [exact H|].
  exact (unread_registry_keys_are_ignored _ _ _ H).
Defined.

(** ** Sources of other types *)

Lemma examined_skip_typed (f : PowerSource → bool) l1 s l2 :
  isInternalBattery s = false →
  forallb f (examined (l1 ++ s :: l2)) = true →
  forallb f (examined (l1 ++ l2)) = true.
Proof.
  intros Hs. induction l1 as [|x l1 IH]; simpl.
  - rewrite examined_cons, Hs. simpl. rewrite andb_true_iff. tauto.
  - rewrite !examined_cons. destruct (isInternalBattery x); [done|].
    simpl. rewrite !andb_true_iff. intros [? ?]. auto.
Qed.

(** X4.  A listed source that is not an internal battery, whether it has
    no description, no type key or another type such as a UPS, contributes
    nothing: with it or without it, wherever it stands in the list, the
    structure returned is the same.  Its capacity, state and estimates are
    never copied. *)
Theorem other_sources_are_ignored
    (l1 l2 : list PowerSource) (s : PowerSource) (reg : option RegistryEntry) :
  isInternalBattery s = false →
  wellTyped (listing (l1 ++ s :: l2) reg) = true →
  ∃ info tr tr',
    getBatteryInfo (listing (l1 ++ s :: l2) reg) = Returns info tr ∧
    getBatteryInfo (listing (l1 ++ l2) reg) = Returns info tr'.
Proof.
  intros Hs Hty.
  exists (snapshot (listing (l1 ++ s :: l2) reg)),
    (calls (listing (l1 ++ s :: l2) reg)), (calls (listing (l1 ++ l2) reg)).
  split; [by apply getBatteryInfo_spec|].
  rewrite getBatteryInfo_spec.
  - f_equal. unfold snapshot. simpl. by rewrite (firstInternalBattery_skip l1 s l2).
  - apply wellTyped_listing in Hty as [Hl Hr]. apply wellTyped_listing.
    split; [|done]. by apply (examined_skip_typed _ l1 s l2).
Qed.

Lemma other_sources_are_ignored_witness :
  isInternalBattery (mkPowerSource (Some ups)) = false ∧
  wellTyped crowded = true ∧
  ∃ tr tr',
    getBatteryInfo crowded =
      Returns (mkBatteryInfo 87 4382 4790 312 12450 (-1520) 1 1 0 45) tr ∧
    getBatteryInfo
      (listing [mkPowerSource None;
                mkPowerSource (Some (battery 87 true "AC Power" 0 45));
                mkPowerSource (Some (battery 12 false "Battery Power" 30 0))]
         withSmartBattery) =
      Returns (mkBatteryInfo 87 4382 4790 312 12450 (-1520) 1 1 0 45) tr'.
Proof.
  assert (Hs : isInternalBattery (mkPowerSource (Some ups)) = false)
    by (vm_compute; reflexivity).
  assert (Hty : wellTyped crowded = true) by (vm_compute; reflexivity).
  split; [exact Hs|]. split; [exact Hty|].
  destruct (other_sources_are_ignored [] _ (mkPowerSource (Some ups)) _ Hs Hty)
    as (info & tr & tr' & Hrun & Hrun').
  exists tr, tr'.
  assert (E : getBatteryInfo crowded =
              Returns (mkBatteryInfo 87 4382 4790 312 12450 (-1520) 1 1 0 45)
                      (calls crowded)) by (vm_compute; reflexivity).
  assert (Hinfo : info = mkBatteryInfo 87 4382 4790 312 12450 (-1520) 1 1 0 45).
  { unfold crowded in E. simpl app in Hrun. rewrite E in Hrun. by injection Hrun as <- _. }
  rewrite <- Hinfo. split; [exact Hrun|exact Hrun'].
Defined.

(** ** The order of the platform calls *)

Lemma usesOwned_describe (l : list nat) tr :
  usesOwned [HpowerSources; HpowerInfo] ((EvDescribe <$> l) ++ tr) =
  usesOwned [HpowerSources; HpowerInfo] tr.
Proof. induction l as [|i l IH]; [done|]. exact IH. Qed.

Lemma nested_describe stack (l : list nat) tr :
  nested stack ((EvDescribe <$> l) ++ tr) = nested stack tr.
Proof. induction l as [|i l IH]; [done|]. exact IH. Qed.

Lemma ownedWhen_describe live (l : list nat) tr :
  ownedWhen isRegistryLookup live ((EvDescribe <$> l) ++ tr) =
  ownedWhen isRegistryLookup live tr.
Proof. induction l as [|i l IH]; [done|]. exact IH. Qed.

(** X5.  Every recorded platform call that takes one of the function's
    objects as an argument is made while that object is owned: the list is
    asked of an owned directory, every description is asked while both the
    directory and the list are owned, the properties are asked of an owned
    registry entry, and every release is of an owned object.  The reads
    inside the borrowed dictionaries leave no event and are not part of
    this statement. *)
Theorem traced_calls_are_handed_owned_objects (P : Platform) :
  wellTyped P = true →
  ∃ info tr, getBatteryInfo P = Returns info tr ∧ usesOwned [] tr = true.
Proof.
  intros Hty. exists (snapshot P), (calls P).
  split; [by apply getBatteryInfo_spec|].
  unfold calls, scanCalls, registryCalls.
  destruct P as [[[[l|]]|] reg];
    cbn [powerSourcesInfo sourcesList registryService]; [|done..].
  change (usesOwned [HpowerSources; HpowerInfo]
            ((EvDescribe <$> seq 0 (scanExtent l)) ++
             [EvRelease HpowerSources; EvRelease HpowerInfo] ++
             match reg with
             | Some e =>
               match entryProperties e with
               | Some _ => [EvAcquire HregistryEntry; EvAcquire Hproperties;
                            EvRelease Hproperties; EvRelease HregistryEntry]
               | None => [EvAcquire HregistryEntry; EvFail Hproperties;
                          EvRelease HregistryEntry]
               end
             | None => [EvFail HregistryEntry]
             end) = true).
  rewrite usesOwned_describe. by destruct reg as [[[d|]]|].
Qed.

Lemma traced_calls_are_handed_owned_objects_witness :
  wellTyped crowded = true ∧
  ∃ info tr, getBatteryInfo crowded = Returns info tr ∧ usesOwned [] tr = true.
Proof.
  assert (Hty : wellTyped crowded = true) by (vm_compute; reflexivity).
  split; [exact Hty|]. exact (traced_calls_are_handed_owned_objects crowded Hty).
Defined.

(** The audit tells a use after release: a description asked once the list
    is released does not pass. *)
Example description_after_release_is_refused :
  usesOwned []
    [EvAcquire HpowerInfo; EvAcquire HpowerSources; EvRelease HpowerSources;
     EvDescribe 0; EvRelease HpowerInfo] = false.
Proof. reflexivity. Qed.

(** X6.  The objects are released in the reverse order of their
    acquisition: the list before the directory, the property dictionary
    before the registry entry.  The two services are never held together:
    when the list is available the registry is looked up with nothing
    owned, both objects of the enumeration service having been released
    before. *)
Theorem releases_are_nested_and_services_apart (P : Platform) :
  wellTyped P = true →
  ∃ info tr,
    getBatteryInfo P = Returns info tr ∧
    nested [] tr = Some [] ∧
    (is_Some (enumerated P) → ownedWhen isRegistryLookup [] tr = Some []).
Proof.
  intros Hty. exists (snapshot P), (calls P).
  split; [by apply getBatteryInfo_spec|].
  unfold calls, scanCalls, registryCalls, enumerated.
  destruct P as [[[[l|]]|] reg];
    cbn [powerSourcesInfo sourcesList registryService mbind option_bind].
  - split.
    + change (nested [HpowerSources; HpowerInfo]
                ((EvDescribe <$> seq 0 (scanExtent l)) ++
                 [EvRelease HpowerSources; EvRelease HpowerInfo] ++
                 match reg with
                 | Some e =>
                   match entryProperties e with
                   | Some _ => [EvAcquire HregistryEntry; EvAcquire Hproperties;
                                EvRelease Hproperties; EvRelease HregistryEntry]
                   | None => [EvAcquire HregistryEntry; EvFail Hproperties;
                              EvRelease HregistryEntry]
                   end
                 | None => [EvFail HregistryEntry]
                 end) = Some []).
      rewrite nested_describe. by destruct reg as [[[d|]]|].
    + intros _.
      change (ownedWhen isRegistryLookup [HpowerSources; HpowerInfo]
                ((EvDescribe <$> seq 0 (scanExtent l)) ++
                 [EvRelease HpowerSources; EvRelease HpowerInfo] ++
                 match reg with
                 | Some e =>
                   match entryProperties e with
                   | Some _ => [EvAcquire HregistryEntry; EvAcquire Hproperties;
                                EvRelease Hproperties; EvRelease HregistryEntry]
                   | None => [EvAcquire HregistryEntry; EvFail Hproperties;
                              EvRelease HregistryEntry]
                   end
                 | None => [EvFail HregistryEntry]
                 end) = Some []).
      rewrite ownedWhen_describe. by destruct reg as [[[d|]]|].
  - split; [done|]. by intros [].
  - split; [done|]. by intros [].
Qed.

Lemma releases_are_nested_and_services_apart_witness :
  wellTyped crowded = true ∧
  ∃ info tr, getBatteryInfo crowded = Returns info tr ∧
             nested [] tr = Some [] ∧
             ownedWhen isRegistryLookup [] tr = Some [].
Proof.
  assert (Hty : wellTyped crowded = true) by (vm_compute; reflexivity).
  split; [exact Hty|].
  destruct (releases_are_nested_and_services_apart crowded Hty)
    as (info & tr & Hrun & Hnest & Hapart).
  exists info, tr. split; [exact Hrun|]. split; [exact Hnest|].
  apply Hapart. eexists. reflexivity.
Defined.

(** The nesting audit tells a release out of order. *)
Example release_out_of_order_is_refused :
  nested []
    [EvAcquire HpowerInfo; EvAcquire HpowerSources;
     EvRelease HpowerInfo; EvRelease HpowerSources] = None.
Proof. reflexivity. Qed.
